(** * TrainingBatchLoop: a shallow embedding of
      [pytorch_lightning/loops/batch/training_batch_loop.py]

    The loop object is a record of its attributes, the trainer is a record of
    the configuration the loop reads and of the answers of its collaborators
    (model hooks, accelerator, utilities), and every method is a computation
    in a state-and-exception monad that also records, in order, the calls
    made to collaborators.

    Conventions
    - Python [int] is [Z]; [%] on ints is [Z.modulo] (the result takes the
      sign of the divisor, as in Python) and raises [ZeroDivisionError] on a
      zero divisor.  Indices produced by [enumerate] and [argmax] are [nat].
    - The array built by [np.cumsum] holds 64-bit signed integers: the
      running sum wraps around.
    - A tensor is the scalar it holds, as an exact rational, together with
      a flag telling whether it is attached to the autograd graph; rounding
      is not modelled.
    - Profiler scopes only time the code they enclose and are left out, as
      are the writes to [_current_fx_name], which only name the running
      hook for the logger. *)

From Stdlib Require Import String ZArith QArith List Bool Sorted Lia.
Import ListNotations.
Local Open Scope Z_scope.

(** ** Values *)

Record Tensor := mkTensor { t_value : Q; t_in_graph : bool }.

(** [tensor / n] for a Python int [n]. *)
Definition tensor_div (t : Tensor) (n : Z) : Tensor :=
  mkTensor (t_value t / inject_Z n) (t_in_graph t).

(** [tensor * n] for a Python int [n]. *)
Definition tensor_mul (t : Tensor) (n : Z) : Tensor :=
  mkTensor (t_value t * inject_Z n) (t_in_graph t).

(** [tensor.detach()]: same value, cut from the graph. *)
Definition detach (t : Tensor) : Tensor := mkTensor (t_value t) false.

(** [tensor.clone()]: a copy, which stays in the graph of its source. *)
Definition clone (t : Tensor) : Tensor := mkTensor (t_value t) (t_in_graph t).

Record Optimizer := mkOptimizer { opt_name : string; is_LBFGS : bool }.

Inductive AMPType := AMP_NATIVE | AMP_APEX.

Definition Batch := list Z.

(** [trainer.track_grad_norm]: a number or the string ['inf']. *)
Inductive NormType := NormP (p : Q) | NormInf.

(** [float(trainer.track_grad_norm) > 0] *)
Definition norm_positive (n : NormType) : bool :=
  match n with
  | NormP p => negb (Qle_bool p 0)
  | NormInf => true
  end.

(** What [training_step] / [training_step_end] hand back. *)
Inductive StepOutput :=
| SO_None
| SO_Tensor (loss : Tensor)
| SO_Dict (loss : option Tensor) (hiddens : option Tensor)
| SO_Other.

Record ResultCollection := mkResults { minimize : option Tensor }.

(** The keyword arguments handed to [accelerator.training_step]. *)
Record StepKwargs := mkKwargs {
  kw_batch : Batch;
  kw_batch_idx : Z;
  kw_opt_idx : option nat;
  kw_hiddens : option Tensor
}.

(** The [AttributeDict] returned by [_training_step], and the
    [ClosureResult] the closure makes of it. *)
Record ClosureResult := mkClosureResult {
  closure_loss : option Tensor;
  loss : option Tensor;
  result_collection : ResultCollection
}.

(** The [AttributeDict] returned by [run]; [None] in
    [training_step_output] is a missing key. *)
Record RunOutput := mkRunOutput {
  signal : Z;
  training_step_output : option (option (list (list ResultCollection)))
}.

Inductive Exn :=
| MisconfigurationException (msg : string)
| ZeroDivisionError
| TypeError
| AttributeError
| IndexError
| ValueError
| NotImplementedError.

(** Calls to collaborators, in the order they are made.  [EvWarn] is a
    message handed to the loop's [WarningCache]. *)
Inductive Event :=
| EvWarn (msg : string)
| EvLoggerOnBatchStart
| EvCallHook (name : string)
| EvBatchProgressStarted
| EvLoggerOnTrainSplitStart (batch_idx : Z) (split_idx : nat) (split : Batch)
| EvToggleOptimizer (opt : option Optimizer) (opt_idx : option nat)
| EvUntoggleOptimizer (opt_idx : option nat)
| EvBlockSyncEnter
| EvBlockSyncExit
| EvTrainingStep (kw : StepKwargs)
| EvPostTrainingStep
| EvModelOptimizerStep (epoch batch_idx : Z) (opt : option Optimizer)
    (opt_idx : option nat) (on_tpu using_native_amp using_lbfgs : bool)
| EvAcceleratorZeroGrad (epoch batch_idx : Z) (opt : option Optimizer)
    (opt_idx : option nat)
| EvAcceleratorBackward (loss : Tensor) (opt : option Optimizer)
    (opt_idx : option nat)
| EvGradNorm (norm_type : NormType)
| EvClipGradients (opt : option Optimizer) (clip_val : Q) (algorithm : string)
| EvLogGradNorm (norms : list (string * Q))
| EvCheckFiniteLoss (loss : Tensor)
| EvTbpttSplitBatch (batch : Batch) (steps : Z).

(** ** The trainer, as the loop sees it *)

Record Trainer := mkTrainer {
  optimizers : list Optimizer;
  optimizer_frequencies : list Z;
  accumulate_grad_batches : Z;
  automatic_optimization : bool;
  truncated_bptt_steps : Z;
  amp_backend : option AMPType;
  track_grad_norm : NormType;
  log_every_n_steps : Z;
  global_step : Z;
  current_epoch : Z;
  gradient_clip_val : Q;
  gradient_clip_algorithm : string;
  terminate_on_nan : bool;
  device_type_is_tpu : bool;
  tpu_available : bool;
  (* fit_loop.should_accumulate() *)
  should_accumulate : bool;
  (* answers of the hooks *)
  on_batch_start_response : option Z;
  on_train_batch_start_response : Batch -> Z -> option Z;
  training_step_end : StepOutput -> StepOutput;
  (* lightning_module.tbptt_split_batch *)
  tbptt_split_batch : Batch -> Z -> list Batch;
  (* how often lightning_module.optimizer_step evaluates the closure *)
  optimizer_step_closure_calls : Z -> option Optimizer -> option nat -> nat;
  (* accelerator.training_step *)
  accelerator_training_step : StepKwargs -> StepOutput;
  (* loops.utilities *)
  check_training_step_output : bool -> StepOutput -> option Exn;
  process_training_step_output :
    StepOutput -> option ResultCollection * option Tensor;
  check_finite_loss : Tensor -> option Exn;
  (* utilities.grad_norm *)
  grad_norm : NormType -> list (string * Q)
}.

(** ** The loop object *)

(** Modelled from the spec: [OptimizationProgress] (trainer/progress.py) is
    not among the sources.  It holds the recorded optimizer index and the
    ready / started / completed counters of the zero-grad and step
    operations that the loop increments. *)
Record Progress := mkProgress {
  optimizer_idx : nat;
  step_ready : nat;
  step_completed : nat;
  zero_grad_ready : nat;
  zero_grad_started : nat;
  zero_grad_completed : nat
}.

Record Loop := mkLoop {
  accumulated_loss : option (list Tensor);
  batch_outputs : option (list (list ResultCollection));
  running_loss : list Tensor;
  split_idx : option nat;
  optim_progress : Progress;
  _hiddens : option Tensor;
  _optimizer_freq_cumsum : option (list Z);
  _remaining_splits : option (list (nat * Batch));
  _skip_backward : bool;
  restarting : bool;
  (* the [_result] cell of the closure made by [_make_closure] *)
  closure_result : option ClosureResult;
  trace : list Event
}.

Definition set_accumulated_loss v (l : Loop) : Loop :=
  mkLoop v (batch_outputs l) (running_loss l) (split_idx l) (optim_progress l)
    (_hiddens l) (_optimizer_freq_cumsum l) (_remaining_splits l)
    (_skip_backward l) (restarting l) (closure_result l) (trace l).

Definition set_batch_outputs v (l : Loop) : Loop :=
  mkLoop (accumulated_loss l) v (running_loss l) (split_idx l)
    (optim_progress l) (_hiddens l) (_optimizer_freq_cumsum l)
    (_remaining_splits l) (_skip_backward l) (restarting l)
    (closure_result l) (trace l).

Definition set_running_loss v (l : Loop) : Loop :=
  mkLoop (accumulated_loss l) (batch_outputs l) v (split_idx l)
    (optim_progress l) (_hiddens l) (_optimizer_freq_cumsum l)
    (_remaining_splits l) (_skip_backward l) (restarting l)
    (closure_result l) (trace l).

Definition set_split_idx v (l : Loop) : Loop :=
  mkLoop (accumulated_loss l) (batch_outputs l) (running_loss l) v
    (optim_progress l) (_hiddens l) (_optimizer_freq_cumsum l)
    (_remaining_splits l) (_skip_backward l) (restarting l)
    (closure_result l) (trace l).

Definition set_optim_progress v (l : Loop) : Loop :=
  mkLoop (accumulated_loss l) (batch_outputs l) (running_loss l) (split_idx l)
    v (_hiddens l) (_optimizer_freq_cumsum l) (_remaining_splits l)
    (_skip_backward l) (restarting l) (closure_result l) (trace l).

Definition set_hiddens v (l : Loop) : Loop :=
  mkLoop (accumulated_loss l) (batch_outputs l) (running_loss l) (split_idx l)
    (optim_progress l) v (_optimizer_freq_cumsum l) (_remaining_splits l)
    (_skip_backward l) (restarting l) (closure_result l) (trace l).

Definition set_optimizer_freq_cumsum v (l : Loop) : Loop :=
  mkLoop (accumulated_loss l) (batch_outputs l) (running_loss l) (split_idx l)
    (optim_progress l) (_hiddens l) v (_remaining_splits l)
    (_skip_backward l) (restarting l) (closure_result l) (trace l).

Definition set_remaining_splits v (l : Loop) : Loop :=
  mkLoop (accumulated_loss l) (batch_outputs l) (running_loss l) (split_idx l)
    (optim_progress l) (_hiddens l) (_optimizer_freq_cumsum l) v
    (_skip_backward l) (restarting l) (closure_result l) (trace l).

Definition set_closure_result v (l : Loop) : Loop :=
  mkLoop (accumulated_loss l) (batch_outputs l) (running_loss l) (split_idx l)
    (optim_progress l) (_hiddens l) (_optimizer_freq_cumsum l)
    (_remaining_splits l) (_skip_backward l) (restarting l) v (trace l).

Definition add_event (e : Event) (l : Loop) : Loop :=
  mkLoop (accumulated_loss l) (batch_outputs l) (running_loss l) (split_idx l)
    (optim_progress l) (_hiddens l) (_optimizer_freq_cumsum l)
    (_remaining_splits l) (_skip_backward l) (restarting l)
    (closure_result l) (trace l ++ [e]).

Definition set_optimizer_idx (i : nat) (p : Progress) : Progress :=
  mkProgress i (step_ready p) (step_completed p) (zero_grad_ready p)
    (zero_grad_started p) (zero_grad_completed p).

Definition incr_step_ready (p : Progress) : Progress :=
  mkProgress (optimizer_idx p) (S (step_ready p)) (step_completed p)
    (zero_grad_ready p) (zero_grad_started p) (zero_grad_completed p).

Definition incr_step_completed (p : Progress) : Progress :=
  mkProgress (optimizer_idx p) (step_ready p) (S (step_completed p))
    (zero_grad_ready p) (zero_grad_started p) (zero_grad_completed p).

Definition incr_zero_grad_ready (p : Progress) : Progress :=
  mkProgress (optimizer_idx p) (step_ready p) (step_completed p)
    (S (zero_grad_ready p)) (zero_grad_started p) (zero_grad_completed p).

Definition incr_zero_grad_started (p : Progress) : Progress :=
  mkProgress (optimizer_idx p) (step_ready p) (step_completed p)
    (zero_grad_ready p) (S (zero_grad_started p)) (zero_grad_completed p).

Definition incr_zero_grad_completed (p : Progress) : Progress :=
  mkProgress (optimizer_idx p) (step_ready p) (step_completed p)
    (zero_grad_ready p) (zero_grad_started p) (S (zero_grad_completed p)).

(** ** Computations on the loop object *)

Inductive Outcome (A : Type) :=
| Ret (a : A)
| Raise (e : Exn).
Arguments Ret {A} a.
Arguments Raise {A} e.

Definition M (A : Type) : Type := Loop -> Outcome A * Loop.

Definition ret {A} (a : A) : M A := fun l => (Ret a, l).

Definition raise {A} (e : Exn) : M A := fun l => (Raise e, l).

Definition bind {A B} (m : M A) (k : A -> M B) : M B :=
  fun l =>
    match m l with
    | (Ret a, l') => k a l'
    | (Raise e, l') => (Raise e, l')
    end.

Definition gets {A} (f : Loop -> A) : M A := fun l => (Ret (f l), l).

Definition modify (f : Loop -> Loop) : M unit := fun l => (Ret tt, f l).

Definition emit (e : Event) : M unit := modify (add_event e).

Definition modify_progress (f : Progress -> Progress) : M unit :=
  modify (fun l => set_optim_progress (f (optim_progress l)) l).

(** [with ctx: body], for a context manager whose entry and exit are
    calls to a collaborator: the exit runs on an exception too. *)
Definition with_scope {A} (enter leave : Event) (body : M A) : M A :=
  fun l =>
    match body (add_event enter l) with
    | (r, l') => (r, add_event leave l')
    end.

Declare Scope loop_scope.
Delimit Scope loop_scope with loop.
Notation "x <- m ;; k" := (bind m (fun x => k))
  (at level 100, m at next level, right associativity) : loop_scope.
Notation "m ;; k" := (bind m (fun _ => k))
  (at level 100, right associativity) : loop_scope.
Local Open Scope loop_scope.

(** [when c: body] *)
Definition when (c : bool) (body : M unit) : M unit :=
  if c then body else ret tt.

(** ** numpy, on 64-bit signed integers *)

Definition wrap64 (z : Z) : Z := (z + 2 ^ 63) mod 2 ^ 64 - 2 ^ 63.

Fixpoint cumsum_from (acc : Z) (l : list Z) : list Z :=
  match l with
  | [] => []
  | x :: r => let a := wrap64 (acc + x) in a :: cumsum_from a r
  end.

(** [np.cumsum(l)] *)
Definition np_cumsum (l : list Z) : list Z := cumsum_from 0 l.

(** [np.argmax(bs)] for an array of booleans: the first [True], or 0. *)
Fixpoint np_argmax (bs : list bool) : nat :=
  match bs with
  | [] => 0%nat
  | true :: _ => 0%nat
  | false :: r => if existsb (fun b => b) r then S (np_argmax r) else 0%nat
  end.

(** [a % b] with [b] an [np.int64]: a zero divisor gives 0 (and a
    warning), no exception. *)
Definition np_mod (a b : Z) : Z := if b =? 0 then 0 else a mod b.

(** [int % int] *)
Definition py_mod (a b : Z) : M Z :=
  if b =? 0 then raise ZeroDivisionError else ret (a mod b).

(** [list(enumerate(l))] *)
Definition enumerate {A} (l : list A) : list (nat * A) :=
  combine (seq 0 (length l)) l.

(** ** TensorRunningAccum *)

(** Modelled from the spec: [TensorRunningAccum] (trainer/supporters.py) is
    not among the sources.  The accumulation buffer holds the values
    appended since its last reset; its mean is undefined ([None]) when it
    is empty. *)
Definition accum_mean (buf : list Tensor) : option Tensor :=
  match buf with
  | [] => None
  | _ =>
      Some (mkTensor
              (fold_right Qplus 0%Q (map t_value buf)
               / inject_Z (Z.of_nat (length buf)))
              (existsb t_in_graph buf))
  end.

Definition window_capacity : nat := 20.

(** Modelled from the spec: [running_loss] is a sliding window of fixed
    capacity 20; a push on a full window evicts the oldest value. *)
Definition window_push (v : Tensor) (w : list Tensor) : list Tensor :=
  if (length w <? window_capacity)%nat then w ++ [v] else tl w ++ [v].

(** [l[i] = v] *)
Fixpoint list_set {A} (l : list A) (i : nat) (v : A) : list A :=
  match l, i with
  | [], _ => []
  | _ :: r, O => v :: r
  | x :: r, S j => x :: list_set r j v
  end.

(** [l[-1]] *)
Definition py_last (l : list Z) : M Z :=
  match rev l with
  | [] => raise IndexError
  | x :: _ => ret x
  end.

(** ** Closure *)

Record Closure := mkClosure {
  step_fn : M (option ClosureResult);
  backward_fn : option (Tensor -> M Tensor);
  zero_grad_fn : option (M unit)
}.

(** Modelled from the spec: the [Closure] class (loops/closure.py) is not
    among the sources.  One invocation runs zero-grad, then the step, then
    backward on the step's loss; backward is not invoked when the step
    yields no loss; the result is cached in the closure. *)
Definition closure_call (c : Closure) : M (option Tensor) :=
  match zero_grad_fn c with
  | Some zero_grad => zero_grad
  | None => ret tt
  end;;
  step_output <- step_fn c;;
  result <-
    match step_output with
    | None => ret None
    | Some r =>
        match backward_fn c, closure_loss r with
        | Some backward, Some cl =>
            cl' <- backward cl;;
            ret (Some (mkClosureResult (Some cl') (loss r)
                         (result_collection r)))
        | _, _ => ret (Some r)
        end
    end;;
  modify (set_closure_result result);;
  ret (match result with Some r => loss r | None => None end).

(** Modelled from the spec: [Closure.get_result] returns the cached result
    of the last invocation. *)
Definition get_result : M (option ClosureResult) := gets closure_result.

Fixpoint repeat_call (n : nat) (c : Closure) : M unit :=
  match n with
  | O => ret tt
  | S k => closure_call c;; repeat_call k c
  end.

(** ** TrainingBatchLoop *)

(** The loop object as [__init__] leaves it. *)
Definition __init__ : Loop :=
  mkLoop None None [] None (mkProgress 0 0 0 0 0 0) None None None
    false false None [].

(** Modelled from the spec: [_build_training_step_kwargs]
    (loops/utilities.py) is not among the sources; it gathers the split,
    the optimizer context and the hidden state. *)
Definition _build_training_step_kwargs (split_batch : Batch) (batch_idx : Z)
    (opt_idx : option nat) (hiddens : option Tensor) : StepKwargs :=
  mkKwargs split_batch batch_idx opt_idx hiddens.

Definition none_batch_warning : string :=
  "train_dataloader yielded None. If this was on purpose, ignore this warning...".

Definition amp_lbfgs_message : string :=
  "native PyTorch amp and lbfgs are not compatible. To request, please file a Github issue in PyTorch and tag @mcarilli".

Section TrainingBatchLoop.

Variable tr : Trainer.

Definition connect : M unit := raise NotImplementedError.

(** [done] *)
Definition done : M bool :=
  rs <- gets _remaining_splits;;
  match rs with
  | None => raise TypeError
  | Some l => ret (length l =? 0)%nat
  end.

Definition optimizer_freq_cumsum : M (list Z) :=
  c <- gets _optimizer_freq_cumsum;;
  match c with
  | None =>
      let cs := np_cumsum (optimizer_frequencies tr) in
      modify (set_optimizer_freq_cumsum (Some cs));;
      ret cs
  | Some cs => ret cs
  end.

Definition get_active_optimizers (batch_idx : option Z)
  : M (list (nat * Optimizer)) :=
  match optimizer_frequencies tr with
  | [] => ret (enumerate (optimizers tr))
  | _ :: _ =>
      cs <- optimizer_freq_cumsum;;
      optimizers_loop_length <- py_last cs;;
      match batch_idx with
      | None => raise TypeError
      | Some b =>
          let current_place_in_loop := np_mod b optimizers_loop_length in
          cs' <- optimizer_freq_cumsum;;
          let opt_idx :=
            np_argmax (map (fun c => current_place_in_loop <? c) cs') in
          match nth_error (optimizers tr) opt_idx with
          | None => raise IndexError
          | Some optimizer => ret [(opt_idx, optimizer)]
          end
      end
  end.

Definition num_active_optimizers (batch_idx : option Z) : M nat :=
  acts <- get_active_optimizers batch_idx;;
  ret (length acts).

Definition reset : M unit :=
  modify (set_hiddens None);;
  modify (set_batch_outputs (Some (repeat [] (length (optimizers tr))))).

Definition _tbptt_split_batch (batch : Batch) : M (list Batch) :=
  let tbptt_steps := truncated_bptt_steps tr in
  if tbptt_steps =? 0 then ret [batch]
  else
    emit (EvTbpttSplitBatch batch tbptt_steps);;
    ret (tbptt_split_batch tr batch tbptt_steps).

Definition on_run_start (batch : Batch) (batch_idx : Z) : M unit :=
  splits <- _tbptt_split_batch batch;;
  modify (set_remaining_splits (Some (enumerate splits))).

Definition teardown : M unit := modify (set_remaining_splits None).

Definition _run_optimization_start (opt_idx : option nat)
    (optimizer : option Optimizer) : M unit :=
  when (automatic_optimization tr && (1 <? length (optimizers tr))%nat)
    (emit (EvToggleOptimizer optimizer opt_idx)).

Definition _run_optimization_end (opt_idx : option nat) : M unit :=
  when (automatic_optimization tr && (1 <? length (optimizers tr))%nat)
    (emit (EvUntoggleOptimizer opt_idx)).

Definition _on_before_zero_grad (optimizer : option Optimizer) : M unit :=
  modify_progress incr_zero_grad_ready;;
  emit (EvCallHook "on_before_zero_grad");;
  modify_progress incr_zero_grad_started.

Definition _optimizer_zero_grad (batch_idx : Z) (optimizer : option Optimizer)
    (opt_idx : option nat) : M unit :=
  emit (EvAcceleratorZeroGrad (current_epoch tr) batch_idx optimizer opt_idx);;
  modify_progress incr_zero_grad_completed.

Definition _track_and_norm_grad (optimizer : option Optimizer)
  : M (list (string * Q)) :=
  r <- py_mod (global_step tr + 1) (log_every_n_steps tr);;
  let can_log := r =? 0 in
  let should_track := norm_positive (track_grad_norm tr) in
  grad_norm_dict <-
    (if should_track && can_log then
       emit (EvGradNorm (track_grad_norm tr));;
       ret (grad_norm tr (track_grad_norm tr))
     else ret []);;
  emit (EvClipGradients optimizer (gradient_clip_val tr)
          (gradient_clip_algorithm tr));;
  ret grad_norm_dict.

Definition backward (loss : Tensor) (optimizer : option Optimizer)
    (opt_idx : option nat) : M Tensor :=
  emit (EvAcceleratorBackward loss optimizer opt_idx);;
  (if negb (should_accumulate tr) then
     grad_norm_dict <- _track_and_norm_grad optimizer;;
     match grad_norm_dict with
     | [] => ret tt
     | _ :: _ => emit (EvLogGradNorm grad_norm_dict)
     end
   else ret tt);;
  ret loss.

Definition _training_step (split_batch : Batch) (batch_idx : Z)
    (opt_idx : option nat) (hiddens : option Tensor)
  : M (option ClosureResult) :=
  let step_kwargs :=
    _build_training_step_kwargs split_batch batch_idx opt_idx hiddens in
  emit (EvTrainingStep step_kwargs);;
  let training_step_output := accelerator_training_step tr step_kwargs in
  emit EvPostTrainingStep;;
  emit (EvCallHook "training_step_end");;
  let training_step_output := training_step_end tr training_step_output in
  match check_training_step_output tr (automatic_optimization tr)
          training_step_output with
  | Some e => raise e
  | None => ret tt
  end;;
  let (result_collection, hiddens') :=
    process_training_step_output tr training_step_output in
  modify (set_hiddens hiddens');;
  match result_collection with
  | None => ret None
  | Some result_collection =>
      if automatic_optimization tr then
        match minimize result_collection with
        | None => raise TypeError
        | Some raw =>
            let closure_loss :=
              tensor_div raw (accumulate_grad_batches tr) in
            let loss := clone (detach closure_loss) in
            ret (Some (mkClosureResult (Some closure_loss) (Some loss)
                         result_collection))
        end
      else ret (Some (mkClosureResult None None result_collection))
  end.

Definition _make_step_fn (split_batch : Batch) (batch_idx : Z)
    (opt_idx : option nat) (hiddens : option Tensor)
  : M (option ClosureResult) :=
  _training_step split_batch batch_idx opt_idx hiddens.

Definition zero_grad_fn_of (batch_idx : Z) (opt_idx : option nat)
    (optimizer : option Optimizer) : M unit :=
  _on_before_zero_grad optimizer;;
  _optimizer_zero_grad batch_idx optimizer opt_idx.

Definition _make_zero_grad_fn (batch_idx : Z) (opt_idx : option nat)
    (optimizer : option Optimizer) : M (option (M unit)) :=
  r <- py_mod batch_idx (accumulate_grad_batches tr);;
  let is_first_batch_to_accumulate := r =? 0 in
  skip <- gets _skip_backward;;
  if negb skip && automatic_optimization tr && is_first_batch_to_accumulate
  then ret (Some (zero_grad_fn_of batch_idx opt_idx optimizer))
  else ret None.

Definition backward_fn_of (optimizer : option Optimizer)
    (opt_idx : option nat) (loss : Tensor) : M Tensor :=
  backward loss optimizer opt_idx;;
  (if terminate_on_nan tr then
     emit (EvCheckFiniteLoss loss);;
     match check_finite_loss tr loss with
     | Some e => raise e
     | None => ret tt
     end
   else ret tt);;
  ret loss.

Definition _make_backward_fn (optimizer : option Optimizer)
    (opt_idx : option nat) : M (option (Tensor -> M Tensor)) :=
  skip <- gets _skip_backward;;
  if negb skip && automatic_optimization tr
  then ret (Some (backward_fn_of optimizer opt_idx))
  else ret None.

Definition _make_closure (split_batch : Batch) (batch_idx : Z)
    (opt_idx : option nat) (optimizer : option Optimizer)
    (hiddens : option Tensor) : M Closure :=
  let step_fn := _make_step_fn split_batch batch_idx opt_idx hiddens in
  backward_fn <- _make_backward_fn optimizer opt_idx;;
  zero_grad_fn <- _make_zero_grad_fn batch_idx opt_idx optimizer;;
  modify (set_closure_result None);;
  ret (mkClosure step_fn backward_fn zero_grad_fn).

Definition _optimizer_step (optimizer : option Optimizer)
    (opt_idx : option nat) (batch_idx : Z)
    (train_step_and_backward_closure : Closure) : M unit :=
  let is_lbfgs :=
    match optimizer with Some o => is_LBFGS o | None => false end in
  let using_native_amp :=
    match amp_backend tr with Some AMP_NATIVE => true | _ => false end in
  if using_native_amp && is_lbfgs then
    raise (MisconfigurationException amp_lbfgs_message)
  else
    modify_progress incr_step_ready;;
    emit (EvModelOptimizerStep (current_epoch tr) batch_idx optimizer opt_idx
            (device_type_is_tpu tr && tpu_available tr)
            using_native_amp is_lbfgs);;
    repeat_call (optimizer_step_closure_calls tr batch_idx optimizer opt_idx)
      train_step_and_backward_closure;;
    modify_progress incr_step_completed.

(** [self.accumulated_loss], which is [None] until the outer loop sets it. *)
Definition the_accumulated_loss : M (list Tensor) :=
  a <- gets accumulated_loss;;
  match a with
  | None => raise AttributeError
  | Some buf => ret buf
  end.

Definition _update_running_loss (current_loss : option Tensor) : M unit :=
  (if automatic_optimization tr then
     buf <- the_accumulated_loss;;
     match current_loss with
     | None => raise TypeError
     | Some t => modify (set_accumulated_loss (Some (buf ++ [t])))
     end
   else ret tt);;
  buf <- the_accumulated_loss;;
  match accum_mean buf with
  | Some _ =>
      buf' <- the_accumulated_loss;;
      match accum_mean buf' with
      | None => raise TypeError
      | Some mean =>
          modify (fun l =>
            set_running_loss
              (window_push (tensor_mul mean (accumulate_grad_batches tr))
                 (running_loss l)) l)
      end
  | None => ret tt
  end;;
  the_accumulated_loss;;
  modify (set_accumulated_loss (Some [])).

Definition _run_optimization (batch_idx : Z) (split_batch : Batch)
    (opt_idx : option nat) (optimizer : option Optimizer)
  : M (option ClosureResult) :=
  _run_optimization_start opt_idx optimizer;;
  hiddens <- gets _hiddens;;
  closure <- _make_closure split_batch batch_idx opt_idx optimizer hiddens;;
  (if should_accumulate tr then
     with_scope EvBlockSyncEnter EvBlockSyncExit
       (closure_call closure;; ret tt)
   else if automatic_optimization tr then
     _optimizer_step optimizer opt_idx batch_idx closure
   else closure_call closure;; ret tt);;
  result <- get_result;;
  match result with
  | Some r => _update_running_loss (loss r)
  | None => ret tt
  end;;
  _run_optimization_end opt_idx;;
  ret result.

(** [self.batch_outputs[i].append(copy(rc))] *)
Definition append_batch_output (i : nat) (rc : ResultCollection) : M unit :=
  bo <- gets batch_outputs;;
  match bo with
  | None => raise TypeError
  | Some outs =>
      match nth_error outs i with
      | None => raise IndexError
      | Some row => modify (set_batch_outputs (Some (list_set outs i (row ++ [rc]))))
      end
  end.

(** The [for opt_idx, optimizer in ...] loop of [advance]. *)
Fixpoint advance_optimizers (batch_idx : Z) (split_batch : Batch)
    (active : list (nat * Optimizer)) : M unit :=
  match active with
  | [] => ret tt
  | (opt_idx, optimizer) :: rest =>
      restarting <- gets restarting;;
      recorded <- gets (fun l => optimizer_idx (optim_progress l));;
      if restarting && (opt_idx <? recorded)%nat then
        advance_optimizers batch_idx split_batch rest
      else
        modify_progress (set_optimizer_idx opt_idx);;
        result <- _run_optimization batch_idx split_batch (Some opt_idx)
                    (Some optimizer);;
        match result with
        | Some r => append_batch_output opt_idx (result_collection r)
        | None => ret tt
        end;;
        advance_optimizers batch_idx split_batch rest
  end.

Definition advance (batch : Batch) (batch_idx : Z) : M unit :=
  rs <- gets _remaining_splits;;
  match rs with
  | None => raise AttributeError
  | Some [] => raise IndexError
  | Some ((split_idx, split_batch) :: rest) =>
      modify (set_remaining_splits (Some rest));;
      modify (set_split_idx (Some split_idx));;
      emit (EvLoggerOnTrainSplitStart batch_idx split_idx split_batch);;
      if automatic_optimization tr then
        active <- get_active_optimizers (Some batch_idx);;
        advance_optimizers batch_idx split_batch active
      else
        result <- _run_optimization batch_idx split_batch None None;;
        match result with
        | Some r => append_batch_output 0 (result_collection r)
        | None => ret tt
        end
  end.

Fixpoint advance_until_done (fuel : nat) (batch : Batch) (batch_idx : Z)
  : M unit :=
  match fuel with
  | O => ret tt
  | S fuel' =>
      d <- done;;
      if d then ret tt
      else advance batch batch_idx;; advance_until_done fuel' batch batch_idx
  end.

(** Modelled from the spec: [Loop.run] of the base class (loops/base.py)
    is not among the sources.  It resets the per-batch state, computes the
    split sequence, processes the splits in order until none remains and
    releases the split queue.  Each [advance] removes one split, so the
    number of splits bounds the iterations. *)
Definition Loop_run (batch : Batch) (batch_idx : Z) : M unit :=
  reset;;
  on_run_start batch batch_idx;;
  n <- gets (fun l => match _remaining_splits l with
                      | Some rs => length rs
                      | None => 0%nat
                      end);;
  advance_until_done n batch batch_idx;;
  teardown.

Definition is_abort (response : option Z) : bool :=
  match response with Some r => r =? -1 | None => false end.

Definition run (batch : option Batch) (batch_idx : Z) : M RunOutput :=
  match batch with
  | None =>
      emit (EvWarn none_batch_warning);;
      ret (mkRunOutput 0 (Some (Some [[]])))
  | Some batch =>
      emit EvLoggerOnBatchStart;;
      emit (EvCallHook "on_batch_start");;
      if is_abort (on_batch_start_response tr) then
        ret (mkRunOutput (-1) None)
      else
        emit (EvCallHook "on_train_batch_start");;
        if is_abort (on_train_batch_start_response tr batch batch_idx) then
          ret (mkRunOutput (-1) None)
        else
          emit EvBatchProgressStarted;;
          Loop_run batch batch_idx;;
          outputs <- gets batch_outputs;;
          modify (set_batch_outputs None);;
          ret (mkRunOutput 0 (Some outputs))
  end.

End TrainingBatchLoop.

(** ** Vocabulary of the statements *)

(** The sum of a list of frequencies. *)
Definition freq_sum (l : list Z) : Z := fold_right Z.add 0 l.

(** The cumulative-sum sequence, entry by entry: entry [i] is the sum of
    the first [i + 1] frequencies. *)
Definition cumsum_at (freqs : list Z) (i : nat) : Z :=
  freq_sum (firstn (S i) freqs).

(** The cached cumulative sums, when there are any, are those of the
    trainer's frequencies (frequencies do not change after setup). *)
Definition cache_coherent (tr : Trainer) (l : Loop) : Prop :=
  _optimizer_freq_cumsum l = None \/
  _optimizer_freq_cumsum l = Some (np_cumsum (optimizer_frequencies tr)).

Definition max_int64 : Z := 2 ^ 63 - 1.

(** The indices [get_active_optimizers] answers for the batch indices
    [bs], asked one after the other on the same loop object. *)
Fixpoint active_indices (tr : Trainer) (bs : list Z) : M (list (list nat)) :=
  match bs with
  | [] => ret []
  | b :: r =>
      active <- get_active_optimizers tr (Some b);;
      more <- active_indices tr r;;
      ret (map fst active :: more)
  end.

(** ** Sample inputs *)

Definition sgd : Optimizer := mkOptimizer "sgd" false.
Definition adam : Optimizer := mkOptimizer "adam" false.
Definition lbfgs : Optimizer := mkOptimizer "lbfgs" true.

(** A step output is a dict with a loss and hidden state, a bare loss or
    [None]. *)
Definition sample_process (o : StepOutput)
  : option ResultCollection * option Tensor :=
  match o with
  | SO_Dict l h => (Some (mkResults l), h)
  | SO_Tensor t => (Some (mkResults (Some t)), None)
  | _ => (None, None)
  end.

Definition sample_step (kw : StepKwargs) : StepOutput :=
  SO_Dict (Some (mkTensor (3 # 1) true)) (Some (mkTensor (1 # 1) true)).

(** Two optimizers with frequencies 2 and 1, automatic optimization. *)
Definition sample_trainer : Trainer :=
  mkTrainer [sgd; adam] [2; 1] 1 true 0 None (NormP (2 # 1)) 2 1 0 (0 # 1)
    "norm" false false false false None (fun _ _ => None) (fun o => o)
    (fun b _ => [b]) (fun _ _ _ => 1%nat) sample_step (fun _ _ => None)
    sample_process (fun _ => None) (fun _ => [("grad_2.0_norm_total"%string, 1 # 1)]).

(** The same two optimizers, no frequencies. *)
Definition plain_trainer : Trainer :=
  mkTrainer [sgd; adam] [] 1 true 0 None (NormP (2 # 1)) 2 1 0 (0 # 1)
    "norm" false false false false None (fun _ _ => None) (fun o => o)
    (fun b _ => [b]) (fun _ _ _ => 1%nat) sample_step (fun _ _ => None)
    sample_process (fun _ => None) (fun _ => []).

(** One LBFGS optimizer under native AMP, accumulating over 4 batches. *)
Definition lbfgs_amp_trainer : Trainer :=
  mkTrainer [lbfgs] [] 4 true 0 (Some AMP_NATIVE) (NormP (2 # 1)) 2 1 0
    (0 # 1) "norm" false false false false None (fun _ _ => None)
    (fun o => o) (fun b _ => [b]) (fun _ _ _ => 1%nat) sample_step
    (fun _ _ => None) sample_process (fun _ => None) (fun _ => []).

(** A model whose [training_step] returns [None]. *)
Definition skipping_trainer : Trainer :=
  mkTrainer [sgd] [] 1 true 0 None (NormP (2 # 1)) 2 1 0 (0 # 1) "norm"
    false false false false None (fun _ _ => None) (fun o => o)
    (fun b _ => [b]) (fun _ _ _ => 1%nat) (fun _ => SO_None)
    (fun _ _ => None) sample_process (fun _ => None) (fun _ => []).

(** The output of the step and its hooks, as [_training_step] sees it
    before validation. *)
Definition step_output (tr : Trainer) (split_batch : Batch) (batch_idx : Z)
    (opt_idx : option nat) (hiddens : option Tensor) : StepOutput :=
  training_step_end tr
    (accelerator_training_step tr
       (_build_training_step_kwargs split_batch batch_idx opt_idx hiddens)).

(** The loop object after the collaborator calls [evs], in this order. *)
Definition add_events (evs : list Event) (l : Loop) : Loop :=
  fold_left (fun l e => add_event e l) evs l.

(** The collaborator calls of one [_training_step]. *)
Definition step_events (split_batch : Batch) (batch_idx : Z)
    (opt_idx : option nat) (hiddens : option Tensor) : list Event :=
  [EvTrainingStep
     (_build_training_step_kwargs split_batch batch_idx opt_idx hiddens);
   EvPostTrainingStep; EvCallHook "training_step_end"].

(** A loop that carries hidden state from an earlier split. *)
Definition loop_with_hiddens : Loop :=
  set_hiddens (Some (mkTensor (5 # 1) false)) __init__.

(** The collaborator calls of one [backward] outside an accumulation
    window: the accelerator's backward, the norm computation when
    [computed], the clipping, and the logging of non-empty [norms]. *)
Definition backward_events (tr : Trainer) (loss : Tensor)
    (optimizer : option Optimizer) (opt_idx : option nat)
    (computed : bool) (norms : list (string * Q)) : list Event :=
  [EvAcceleratorBackward loss optimizer opt_idx]
  ++ (if computed then [EvGradNorm (track_grad_norm tr)] else [])
  ++ [EvClipGradients optimizer (gradient_clip_val tr)
        (gradient_clip_algorithm tr)]
  ++ match norms with
     | [] => []
     | _ :: _ => [EvLogGradNorm norms]
     end.

(** *** Resuming the optimizer loop *)

(** The optimizer loop of [advance] as it runs when nothing is skipped:
    every listed optimizer, in order, has its index recorded as progress,
    is run on the split, and has its result appended to its output. *)
Fixpoint run_optimizers (tr : Trainer) (batch_idx : Z) (split_batch : Batch)
    (active : list (nat * Optimizer)) : M unit :=
  match active with
  | [] => ret tt
  | (opt_idx, optimizer) :: rest =>
      modify_progress (set_optimizer_idx opt_idx);;
      result <- _run_optimization tr batch_idx split_batch (Some opt_idx)
                  (Some optimizer);;
      match result with
      | Some r => append_batch_output opt_idx (result_collection r)
      | None => ret tt
      end;;
      run_optimizers tr batch_idx split_batch rest
  end.

(** The active optimizers a restart at recorded index [k] does not skip. *)
Definition not_skipped (k : nat) (active : list (nat * Optimizer))
  : list (nat * Optimizer) :=
  filter (fun p => (k <=? fst p)%nat) active.

(** [advance] under automatic optimization as the spec describes a
    restart with recorded optimizer index [k]: the indices below [k] are
    skipped and the loop runs from [k] on. *)
Definition advance_resuming (tr : Trainer) (k : nat) (batch : Batch)
    (batch_idx : Z) : M unit :=
  rs <- gets _remaining_splits;;
  match rs with
  | None => raise AttributeError
  | Some [] => raise IndexError
  | Some ((split_idx, split_batch) :: rest) =>
      modify (set_remaining_splits (Some rest));;
      modify (set_split_idx (Some split_idx));;
      emit (EvLoggerOnTrainSplitStart batch_idx split_idx split_batch);;
      active <- get_active_optimizers tr (Some batch_idx);;
      run_optimizers tr batch_idx split_batch (not_skipped k active)
  end.

(** What the restart check of [advance] reads. *)
Definition resume_state (l : Loop) : bool * nat :=
  (restarting l, optimizer_idx (optim_progress l)).

(** A computation that leaves the restart flag and the recorded optimizer
    index alone, whether it returns or raises. *)
Definition keeps {A} (m : M A) : Prop :=
  forall l, resume_state (snd (m l)) = resume_state l.

Definition closure_keeps (c : Closure) : Prop :=
  keeps (step_fn c) /\
  (forall backward, backward_fn c = Some backward ->
                    forall t, keeps (backward t)) /\
  (forall zero_grad, zero_grad_fn c = Some zero_grad -> keeps zero_grad).

(** A loop restarted in the middle of a batch, after optimizer 1 was
    recorded, with its split queue and outputs in place. *)
Definition restarted_loop : Loop :=
  mkLoop (Some []) (Some [[]; []]) [] None (mkProgress 1 0 0 0 0 0) None None
    (Some [(0%nat, [1; 2])]) false true None [].

(** *** Relations between the loop before and after a computation *)

(** A computation is stable for a relation when the loop it leaves is
    related to the loop it was started on, whether it returns or raises.
    With a reflexive and transitive relation this composes along [bind]. *)
Definition stable (R : Loop -> Loop -> Prop) {A} (m : M A) : Prop :=
  forall l, R l (snd (m l)).

Definition closure_stable (R : Loop -> Loop -> Prop) (c : Closure) : Prop :=
  stable R (step_fn c) /\
  (forall backward, backward_fn c = Some backward ->
                    forall t, stable R (backward t)) /\
  (forall zero_grad, zero_grad_fn c = Some zero_grad -> stable R zero_grad).

(** The split queue and the current split index are the same. *)
Definition same_queue (l l' : Loop) : Prop :=
  _remaining_splits l' = _remaining_splits l /\ split_idx l' = split_idx l.

(** The optimizer-step counters are the same. *)
Definition same_steps (l l' : Loop) : Prop :=
  step_ready (optim_progress l') = step_ready (optim_progress l) /\
  step_completed (optim_progress l') = step_completed (optim_progress l).

(** The zero-grad counters are the same. *)
Definition same_zero_grads (l l' : Loop) : Prop :=
  zero_grad_ready (optim_progress l') = zero_grad_ready (optim_progress l) /\
  zero_grad_started (optim_progress l') = zero_grad_started (optim_progress l)
  /\
  zero_grad_completed (optim_progress l')
  = zero_grad_completed (optim_progress l).

(** The whole progress record is the same. *)
Definition same_progress (l l' : Loop) : Prop :=
  optim_progress l' = optim_progress l.

(** The running-loss state is the same. *)
Definition same_losses (l l' : Loop) : Prop :=
  accumulated_loss l' = accumulated_loss l /\
  running_loss l' = running_loss l.

(** The trace has only grown, by calls that satisfy [Q]. *)
Definition appended (Q : Event -> Prop) (l l' : Loop) : Prop :=
  exists evs, trace l' = trace l ++ evs /\ Forall Q evs.

(** No operation is counted as further along than the stage before it. *)
Definition counters_ordered (p : Progress) : Prop :=
  (step_completed p <= step_ready p)%nat /\
  (zero_grad_completed p <= zero_grad_started p)%nat /\
  (zero_grad_started p <= zero_grad_ready p)%nat.

(** From [p] to [p'] no counter has gone down, and no stage has advanced
    by more than the stage before it. *)
Definition progress_advances (p p' : Progress) : Prop :=
  (step_ready p <= step_ready p')%nat /\
  (step_completed p <= step_completed p')%nat /\
  (zero_grad_ready p <= zero_grad_ready p')%nat /\
  (zero_grad_started p <= zero_grad_started p')%nat /\
  (zero_grad_completed p <= zero_grad_completed p')%nat /\
  (step_completed p' + step_ready p <= step_completed p + step_ready p')%nat
  /\
  (zero_grad_started p' + zero_grad_ready p
   <= zero_grad_started p + zero_grad_ready p')%nat /\
  (zero_grad_completed p' + zero_grad_started p
   <= zero_grad_completed p + zero_grad_started p')%nat.

Definition advances (l l' : Loop) : Prop :=
  progress_advances (optim_progress l) (optim_progress l').

(** The optimizer index a collaborator call is made for, when it is made
    for one. *)
Definition event_opt_idx (e : Event) : option nat :=
  match e with
  | EvToggleOptimizer _ i => i
  | EvUntoggleOptimizer i => i
  | EvTrainingStep kw => kw_opt_idx kw
  | EvModelOptimizerStep _ _ _ i _ _ _ => i
  | EvAcceleratorZeroGrad _ _ _ i => i
  | EvAcceleratorBackward _ _ i => i
  | _ => None
  end.

(** A call that is made for no optimizer index below [k]. *)
Definition at_least (k : nat) (e : Event) : Prop :=
  forall i, event_opt_idx e = Some i -> (k <= i)%nat.

(** The calls one optimization of a split may make: each is made for the
    optimizer, the optimizer index, the batch index and the split of this
    optimization, and every training step is given the hidden state
    [hiddens]. *)
Definition optimization_event (tr : Trainer) (batch_idx : Z)
    (split_batch : Batch) (opt_idx : option nat)
    (optimizer : option Optimizer) (hiddens : option Tensor) (e : Event)
  : Prop :=
  match e with
  | EvToggleOptimizer o i => o = optimizer /\ i = opt_idx
  | EvUntoggleOptimizer i => i = opt_idx
  | EvBlockSyncEnter | EvBlockSyncExit => True
  | EvTrainingStep kw =>
      kw = mkKwargs split_batch batch_idx opt_idx hiddens
  | EvPostTrainingStep => True
  | EvCallHook name =>
      name = "training_step_end"%string \/
      name = "on_before_zero_grad"%string
  | EvModelOptimizerStep epoch b o i _ _ _ =>
      epoch = current_epoch tr /\ b = batch_idx /\ o = optimizer /\
      i = opt_idx
  | EvAcceleratorZeroGrad epoch b o i =>
      epoch = current_epoch tr /\ b = batch_idx /\ o = optimizer /\
      i = opt_idx
  | EvAcceleratorBackward _ o i => o = optimizer /\ i = opt_idx
  | EvGradNorm n => n = track_grad_norm tr
  | EvClipGradients o v a =>
      o = optimizer /\ v = gradient_clip_val tr /\
      a = gradient_clip_algorithm tr
  | EvLogGradNorm _ => True
  | EvCheckFiniteLoss _ => True
  | _ => False
  end.

(** The calls of a step that neither steps an optimizer nor touches
    gradients. *)
Definition forward_only_event (e : Event) : Prop :=
  match e with
  | EvTrainingStep _ | EvPostTrainingStep
  | EvBlockSyncEnter | EvBlockSyncExit => True
  | EvCallHook name => name = "training_step_end"%string
  | _ => False
  end.

Definition not_optimizer_step (e : Event) : Prop :=
  match e with
  | EvModelOptimizerStep _ _ _ _ _ _ _ => False
  | _ => True
  end.

Definition not_toggling (e : Event) : Prop :=
  match e with
  | EvToggleOptimizer _ _ | EvUntoggleOptimizer _ => False
  | _ => True
  end.

(** [_run_optimization] between the toggling and the untoggling of the
    optimizer, once the stored hidden state [hiddens] has been read. *)
Definition optimization_inner (tr : Trainer) (batch_idx : Z)
    (split_batch : Batch) (opt_idx : option nat)
    (optimizer : option Optimizer) (hiddens : option Tensor)
  : M (option ClosureResult) :=
  closure <- _make_closure tr split_batch batch_idx opt_idx optimizer hiddens;;
  (if should_accumulate tr then
     with_scope EvBlockSyncEnter EvBlockSyncExit
       (closure_call closure;; ret tt)
   else if automatic_optimization tr then
     _optimizer_step tr optimizer opt_idx batch_idx closure
   else closure_call closure;; ret tt);;
  result <- get_result;;
  match result with
  | Some r => _update_running_loss tr (loss r)
  | None => ret tt
  end;;
  ret result.

(** Two LBFGS optimizers under native AMP. *)
Definition two_lbfgs_amp_trainer : Trainer :=
  mkTrainer [lbfgs; lbfgs] [] 4 true 0 (Some AMP_NATIVE) (NormP (2 # 1)) 2 1
    0 (0 # 1) "norm" false false false false None (fun _ _ => None)
    (fun o => o) (fun b _ => [b]) (fun _ _ _ => 1%nat) sample_step
    (fun _ _ => None) sample_process (fun _ => None) (fun _ => []).

(** Manual optimization with one optimizer. *)
Definition manual_trainer : Trainer :=
  mkTrainer [sgd] [] 1 false 0 None (NormP (2 # 1)) 2 1 0 (0 # 1) "norm"
    false false false false None (fun _ _ => None) (fun o => o)
    (fun b _ => [b]) (fun _ _ _ => 1%nat) sample_step (fun _ _ => None)
    sample_process (fun _ => None) (fun _ => []).

(** Two optimizers, inside an accumulation window. *)
Definition accumulating_trainer : Trainer :=
  mkTrainer [sgd; adam] [] 4 true 0 None (NormP (2 # 1)) 2 1 0 (0 # 1)
    "norm" false false false true None (fun _ _ => None) (fun o => o)
    (fun b _ => [b]) (fun _ _ _ => 1%nat) sample_step (fun _ _ => None)
    sample_process (fun _ => None) (fun _ => []).

(** A loop set up by the outer loops, in the middle of training. *)
Definition running_loop : Loop :=
  mkLoop (Some []) (Some [[]; []]) [] None (mkProgress 0 3 3 2 2 2) None None
    (Some [(0%nat, [1; 2])]) false false None [].

(** A model whose [on_batch_start] hook asks to stop. *)
Definition aborting_trainer : Trainer :=
  mkTrainer [sgd; adam] [] 1 true 0 None (NormP (2 # 1)) 2 1 0 (0 # 1)
    "norm" false false false false (Some (-1)) (fun _ _ => None) (fun o => o)
    (fun b _ => [b]) (fun _ _ _ => 1%nat) sample_step (fun _ _ => None)
    sample_process (fun _ => None) (fun _ => []).

(** A trainer that never logs: [log_every_n_steps = 0], norm tracking off. *)
Definition never_logging_trainer : Trainer :=
  mkTrainer [sgd] [] 1 true 0 None (NormP (-1 # 1)) 0 1 0 (0 # 1) "norm"
    false false false false None (fun _ _ => None) (fun o => o)
    (fun b _ => [b]) (fun _ _ _ => 1%nat) sample_step (fun _ _ => None)
    sample_process (fun _ => None) (fun _ => []).

(** A model whose step output is rejected by the validation. *)
Definition invalid_output_trainer : Trainer :=
  mkTrainer [sgd] [] 1 true 0 None (NormP (2 # 1)) 2 1 0 (0 # 1) "norm"
    false false false false None (fun _ _ => None) (fun o => o)
    (fun b _ => [b]) (fun _ _ _ => 1%nat) (fun _ => SO_Other)
    (fun _ o =>
       match o with
       | SO_Other => Some (MisconfigurationException "invalid step output")
       | _ => None
       end)
    sample_process (fun _ => None) (fun _ => []).

(** The index of the one optimizer that is active at batch index [b]. *)
Definition active_index (tr : Trainer) (l : Loop) (b : Z) : option nat :=
  match fst (get_active_optimizers tr (Some b) l) with
  | Ret [(i, _)] => Some i
  | _ => None
  end.

(** How often optimizer [i] is the active one over the batch indices
    [0 .. n - 1]. *)
Definition times_active (tr : Trainer) (l : Loop) (i n : nat) : nat :=
  length
    (filter
       (fun b =>
          match active_index tr l (Z.of_nat b) with
          | Some j => (j =? i)%nat
          | None => false
          end)
       (seq 0 n)).

(** The outputs [b] have the rows of [a], each possibly with more results
    at its end. *)
Definition rows_extend (a b : list (list ResultCollection)) : Prop :=
  length b = length a /\
  forall j row, nth_error a j = Some row ->
                exists extra, nth_error b j = Some (row ++ extra).

(** The batch outputs, when allocated, have kept their rows and only
    gained results. *)
Definition outputs_grow (l l' : Loop) : Prop :=
  match batch_outputs l with
  | None => batch_outputs l' = None
  | Some a => exists b, batch_outputs l' = Some b /\ rows_extend a b
  end.

(** ** Arithmetic of the cumulative sums *)

Lemma wrap64_small (z : Z) : - 2 ^ 63 <= z < 2 ^ 63 -> wrap64 z = z.
Proof.
  intros H. unfold wrap64.
  rewrite Z.mod_small by lia. lia.
Qed.

Lemma freq_sum_pos (l : list Z) : Forall (fun f => 0 < f) l -> 0 <= freq_sum l.
Proof.
  induction 1 as [|x r Hx _ IH]; simpl; lia.
Qed.

Lemma cumsum_from_nth (l : list Z) : forall acc i,
  0 <= acc -> Forall (fun f => 0 < f) l -> acc + freq_sum l <= max_int64 ->
  (i < length l)%nat ->
  nth_error (cumsum_from acc l) i = Some (acc + cumsum_at l i).
Proof.
  unfold max_int64, cumsum_at.
  induction l as [|x r IH]; intros acc i Hacc Hpos Hsum Hi; simpl in *.
  - lia.
  - inversion Hpos as [|? ? Hx Hr]; subst.
    pose proof (freq_sum_pos r Hr) as Hr0.
    rewrite wrap64_small by lia.
    destruct i as [|i]; simpl.
    + destruct r; simpl; f_equal; lia.
    + rewrite IH by (try assumption; try lia).
      f_equal. simpl. lia.
Qed.

Lemma cumsum_from_length (l : list Z) : forall acc,
  length (cumsum_from acc l) = length l.
Proof.
  induction l as [|x r IH]; intros acc; simpl; [reflexivity|].
  now rewrite IH.
Qed.

Lemma rev_head_nth (l : list Z) (x : Z) (r : list Z) :
  rev l = x :: r -> nth_error l (length l - 1) = Some x.
Proof.
  intros H.
  assert (Hl : l = rev r ++ [x]).
  { rewrite <- (rev_involutive l), H. reflexivity. }
  rewrite Hl, length_app, length_rev. simpl.
  rewrite nth_error_app2 by (rewrite length_rev; lia).
  rewrite length_rev.
  replace (length r + 1 - 1 - length r)%nat with 0%nat by lia.
  reflexivity.
Qed.

Lemma firstn_length_sum (l : list Z) :
  l <> [] -> cumsum_at l (length l - 1) = freq_sum l.
Proof.
  intros Hl. unfold cumsum_at.
  destruct l as [|x r]; [congruence|].
  replace (S (length (x :: r) - 1)) with (length (x :: r)) by (simpl; lia).
  now rewrite firstn_all.
Qed.

(** ** [np.argmax] on booleans *)

Lemma np_argmax_first (bs : list bool) :
  existsb (fun b => b) bs = true ->
  nth_error bs (np_argmax bs) = Some true /\
  forall j, (j < np_argmax bs)%nat -> nth_error bs j = Some false.
Proof.
  induction bs as [|b r IH]; simpl; [discriminate|].
  destruct b; simpl; intros H.
  - split; [reflexivity | intros j Hj; lia].
  - rewrite H. destruct (IH H) as [Hn Hlt].
    split; [exact Hn|].
    intros [|j] Hj; simpl; [reflexivity | apply Hlt; lia].
Qed.

Lemma existsb_nth (bs : list bool) (i : nat) :
  nth_error bs i = Some true -> existsb (fun b => b) bs = true.
Proof.
  revert i. induction bs as [|b r IH]; intros [|i]; simpl; try discriminate.
  - intros [= ->]. reflexivity.
  - intros H. rewrite (IH _ H). apply orb_true_r.
Qed.

(** ** [enumerate] *)

Lemma combine_seq_nth {A} (l : list A) : forall s i,
  nth_error (combine (seq s (length l)) l) i =
  option_map (pair (s + i)%nat) (nth_error l i).
Proof.
  induction l as [|x r IH]; intros s i; simpl.
  - now destruct i.
  - destruct i as [|i]; simpl.
    + now rewrite Nat.add_0_r.
    + rewrite IH. now rewrite Nat.add_succ_r.
Qed.

Lemma enumerate_nth {A} (l : list A) (i : nat) :
  nth_error (enumerate l) i = option_map (pair i) (nth_error l i).
Proof.
  unfold enumerate. now rewrite combine_seq_nth.
Qed.

Lemma enumerate_length {A} (l : list A) : length (enumerate l) = length l.
Proof.
  unfold enumerate. rewrite length_combine, length_seq. lia.
Qed.

Lemma enumerate_fst {A} (l : list A) :
  map fst (enumerate l) = seq 0 (length l).
Proof.
  unfold enumerate. generalize 0%nat.
  induction l as [|x r IH]; intros s; simpl; [reflexivity|].
  now rewrite IH.
Qed.

Lemma enumerate_snd {A} (l : list A) : map snd (enumerate l) = l.
Proof.
  unfold enumerate. generalize 0%nat.
  induction l as [|x r IH]; intros s; simpl; [reflexivity|].
  now rewrite IH.
Qed.

(** ** [get_active_optimizers] *)

(** C9. With no optimizer frequencies configured, [get_active_optimizers]
    answers, for every batch index and for an omitted one, the list of all
    configured optimizers, each paired with its index, in index order and
    once each; the loop object is left as it was. *)
Theorem get_active_optimizers_no_frequencies :
  forall (tr : Trainer) (batch_idx : option Z) (l : Loop),
    optimizer_frequencies tr = [] ->
    exists active,
      get_active_optimizers tr batch_idx l = (Ret active, l) /\
      length active = length (optimizers tr) /\
      map fst active = seq 0 (length (optimizers tr)) /\
      map snd active = optimizers tr /\
      forall i, nth_error active i =
                option_map (pair i) (nth_error (optimizers tr) i).
Proof.
  intros tr batch_idx l Hf.
  exists (enumerate (optimizers tr)).
  unfold get_active_optimizers. rewrite Hf.
  repeat split.
  - apply enumerate_length.
  - apply enumerate_fst.
  - apply enumerate_snd.
  - intros i. apply enumerate_nth.
Qed.

Lemma get_active_optimizers_no_frequencies_witness :
  exists active,
    get_active_optimizers plain_trainer None __init__ = (Ret active, __init__) /\
    length active = 2%nat /\
    map fst active = [0%nat; 1%nat] /\
    map snd active = [sgd; adam] /\
    forall i, nth_error active i =
              option_map (pair i) (nth_error [sgd; adam] i).
Proof.
  apply (get_active_optimizers_no_frequencies plain_trainer None __init__).
  reflexivity.
Defined.

Lemma set_cumsum_same (l : Loop) (cs : list Z) :
  _optimizer_freq_cumsum l = Some cs -> set_optimizer_freq_cumsum (Some cs) l = l.
Proof.
  destruct l; simpl. intros ->. reflexivity.
Qed.

(** Reading the property twice on a coherent cache gives the cumulative
    sums of the trainer's frequencies and leaves them cached. *)
Lemma optimizer_freq_cumsum_coherent (tr : Trainer) (l : Loop) :
  cache_coherent tr l ->
  optimizer_freq_cumsum tr l =
  (Ret (np_cumsum (optimizer_frequencies tr)),
   set_optimizer_freq_cumsum (Some (np_cumsum (optimizer_frequencies tr))) l).
Proof.
  intros [H|H]; unfold optimizer_freq_cumsum, bind, gets; rewrite H.
  - reflexivity.
  - unfold ret. now rewrite set_cumsum_same.
Qed.

Lemma cache_coherent_set (tr : Trainer) (l : Loop) :
  cache_coherent tr
    (set_optimizer_freq_cumsum (Some (np_cumsum (optimizer_frequencies tr))) l).
Proof.
  right. reflexivity.
Qed.

Lemma set_cumsum_idem (l : Loop) (c : option (list Z)) :
  set_optimizer_freq_cumsum c (set_optimizer_freq_cumsum c l) =
  set_optimizer_freq_cumsum c l.
Proof.
  reflexivity.
Qed.

(** The index picked among the cumulative sums: the period is their last
    entry, and the pick is the first entry above the position. *)
Lemma rotation_index (freqs : list Z) (b : Z) :
  freqs <> [] ->
  Forall (fun f => 0 < f) freqs ->
  freq_sum freqs <= max_int64 ->
  let period := cumsum_at freqs (length freqs - 1) in
  let position := b mod period in
  let i := np_argmax (map (fun c => position <? c) (np_cumsum freqs)) in
  py_last (np_cumsum freqs) = ret period /\
  np_mod b period = position /\
  (i < length freqs)%nat /\
  cumsum_at freqs i > position /\
  (forall j, (j < i)%nat -> cumsum_at freqs j <= position).
Proof.
  intros Hne Hpos Hsum period position.
  assert (Hlen0 : (0 < length freqs)%nat)
    by (destruct freqs; [congruence | simpl; lia]).
  assert (Hper : period = freq_sum freqs)
    by (apply firstn_length_sum; exact Hne).
  assert (Hper0 : 0 < period).
  { rewrite Hper. destruct Hpos as [|x r Hx Hr]; [congruence|]. simpl.
    pose proof (freq_sum_pos r Hr). lia. }
  assert (Hnth : forall i, (i < length freqs)%nat ->
            nth_error (np_cumsum freqs) i = Some (cumsum_at freqs i)).
  { intros i Hi. unfold np_cumsum.
    rewrite cumsum_from_nth by (try assumption; simpl; lia).
    f_equal. }
  assert (Hcl : length (np_cumsum freqs) = length freqs)
    by apply cumsum_from_length.
  assert (Hposr : 0 <= position < period) by (apply Z.mod_pos_bound; lia).
  set (bs := map (fun c => position <? c) (np_cumsum freqs)).
  assert (Hex : existsb (fun b => b) bs = true).
  { apply existsb_nth with (i := (length freqs - 1)%nat).
    unfold bs. rewrite nth_error_map, Hnth by lia.
    simpl. f_equal. apply Z.ltb_lt. fold period. lia. }
  destruct (np_argmax_first bs Hex) as [Hi Hlt].
  assert (Hilen : (np_argmax bs < length freqs)%nat).
  { assert (Hb : (np_argmax bs < length bs)%nat)
      by (apply nth_error_Some; rewrite Hi; discriminate).
    unfold bs in Hb at 2. now rewrite length_map, Hcl in Hb. }
  simpl. fold bs.
  split; [|split; [|split; [exact Hilen | split]]].
  - unfold py_last. destruct (rev (np_cumsum freqs)) as [|x r] eqn:E.
    + apply (f_equal (@length Z)) in E. rewrite length_rev, Hcl in E.
      simpl in E. lia.
    + apply rev_head_nth in E. rewrite Hcl, Hnth in E by lia.
      now inversion E.
  - unfold np_mod.
    replace (period =? 0) with false by (symmetry; apply Z.eqb_neq; lia).
    reflexivity.
  - unfold bs in Hi at 1. rewrite nth_error_map, Hnth in Hi by exact Hilen.
    simpl in Hi. inversion Hi as [Hi']. apply Z.ltb_lt in Hi'. lia.
  - intros j Hj. specialize (Hlt j Hj). unfold bs in Hlt.
    rewrite nth_error_map, Hnth in Hlt by lia.
    simpl in Hlt. inversion Hlt as [Hlt']. apply Z.ltb_ge in Hlt'. exact Hlt'.
Qed.

Lemma get_active_optimizers_configured (tr : Trainer) (l : Loop) (b : Z) :
  optimizer_frequencies tr <> [] ->
  cache_coherent tr l ->
  let cs := np_cumsum (optimizer_frequencies tr) in
  get_active_optimizers tr (Some b) l =
  (period <- py_last cs;;
   let i := np_argmax (map (fun c => np_mod b period <? c) cs) in
   match nth_error (optimizers tr) i with
   | None => raise IndexError
   | Some optimizer => ret [(i, optimizer)]
   end) (set_optimizer_freq_cumsum (Some cs) l).
Proof.
  intros Hne Hc cs.
  assert (H1 : optimizer_freq_cumsum tr l =
               (Ret cs, set_optimizer_freq_cumsum (Some cs) l))
    by (apply optimizer_freq_cumsum_coherent; exact Hc).
  assert (H2 : optimizer_freq_cumsum tr (set_optimizer_freq_cumsum (Some cs) l)
               = (Ret cs, set_optimizer_freq_cumsum (Some cs) l)).
  { unfold cs.
    rewrite optimizer_freq_cumsum_coherent by apply cache_coherent_set.
    reflexivity. }
  clearbody cs. unfold get_active_optimizers.
  destruct (optimizer_frequencies tr) as [|f0 fr]; [congruence|].
  unfold bind, py_last, raise, ret. rewrite H1.
  destruct (rev cs) as [|period r]; [reflexivity|].
  rewrite H2. reflexivity.
Qed.

(** C1. With optimizer frequencies configured (positive integers whose sum
    fits a 64-bit integer, one per optimizer), [get_active_optimizers b]
    answers exactly one pair [(i, optimizers[i])] for every batch index
    [b]: with [period] the last entry of the cumulative sums of the
    frequencies and [position = b mod period], [i] is the smallest index
    whose cumulative sum exceeds [position].  The only effect on the loop
    object is that the cumulative sums are cached.  For frequencies
    [2, 1], asking for the batch indices 0 to 5 in turn on a fresh loop
    gives the indices 0, 0, 1, 0, 0, 1. *)
Theorem get_active_optimizers_frequencies :
  (forall (tr : Trainer) (l : Loop) (b : Z),
     optimizer_frequencies tr <> [] ->
     Forall (fun f => 0 < f) (optimizer_frequencies tr) ->
     freq_sum (optimizer_frequencies tr) <= max_int64 ->
     (length (optimizer_frequencies tr) <= length (optimizers tr))%nat ->
     cache_coherent tr l ->
     let freqs := optimizer_frequencies tr in
     let period := cumsum_at freqs (length freqs - 1) in
     let position := b mod period in
     exists i optimizer,
       get_active_optimizers tr (Some b) l =
         (Ret [(i, optimizer)],
          set_optimizer_freq_cumsum (Some (np_cumsum freqs)) l) /\
       nth_error (optimizers tr) i = Some optimizer /\
       (i < length freqs)%nat /\
       cumsum_at freqs i > position /\
       (forall j, (j < i)%nat -> cumsum_at freqs j <= position)) /\
  (forall (tr : Trainer),
     optimizer_frequencies tr = [2; 1] ->
     (2 <= length (optimizers tr))%nat ->
     fst (active_indices tr [0; 1; 2; 3; 4; 5] __init__) =
     Ret [[0]; [0]; [1]; [0]; [0]; [1]]%nat).
Proof.
  split.
  - intros tr l b Hne Hpos Hsum Hlen Hc. cbv zeta.
    pose proof (rotation_index (optimizer_frequencies tr) b Hne Hpos Hsum)
      as H.
    cbv zeta in H. destruct H as (Hlast & Hmod & Hi & Hgt & Hlt).
    set (freqs := optimizer_frequencies tr) in *.
    set (position := b mod cumsum_at freqs (length freqs - 1)) in *.
    set (i := np_argmax (map (fun c => position <? c) (np_cumsum freqs))) in *.
    destruct (nth_error (optimizers tr) i) as [o|] eqn:Ho.
    2:{ apply nth_error_None in Ho. lia. }
    exists i, o. repeat split; try assumption.
    rewrite get_active_optimizers_configured by assumption.
    fold freqs. unfold bind. rewrite Hlast. unfold ret at 1.
    rewrite Hmod. fold i. rewrite Ho. reflexivity.
  - intros tr Hf Hlen.
    destruct (optimizers tr) as [|o0 [|o1 rest]] eqn:Ho;
      simpl in Hlen; try lia.
    unfold active_indices, get_active_optimizers, optimizer_freq_cumsum.
    rewrite Hf, Ho. vm_compute. reflexivity.
Qed.

Lemma get_active_optimizers_frequencies_witness :
  exists i optimizer,
    get_active_optimizers sample_trainer (Some 4) __init__ =
      (Ret [(i, optimizer)],
       set_optimizer_freq_cumsum (Some [2; 3]) __init__) /\
    nth_error [sgd; adam] i = Some optimizer /\
    (i < 2)%nat /\
    cumsum_at [2; 1] i > 1 /\
    (forall j, (j < i)%nat -> cumsum_at [2; 1] j <= 1).
Proof.
  apply (proj1 get_active_optimizers_frequencies sample_trainer __init__ 4).
  - discriminate.
  - repeat constructor.
  - vm_compute. discriminate.
  - simpl. lia.
  - left. reflexivity.
Defined.

(** ** [_make_closure] *)

Lemma _make_zero_grad_fn_eq (tr : Trainer) (l : Loop) (b : Z)
    (opt_idx : option nat) (optimizer : option Optimizer) :
  accumulate_grad_batches tr <> 0 ->
  _make_zero_grad_fn tr b opt_idx optimizer l =
  (Ret (if negb (_skip_backward l) && automatic_optimization tr
           && (b mod accumulate_grad_batches tr =? 0)
        then Some (zero_grad_fn_of tr b opt_idx optimizer) else None), l).
Proof.
  intros Hagb. apply Z.eqb_neq in Hagb.
  unfold _make_zero_grad_fn, py_mod. rewrite Hagb.
  unfold bind, gets, ret. cbv beta.
  now destruct (negb (_skip_backward l) && automatic_optimization tr
                && (b mod accumulate_grad_batches tr =? 0)).
Qed.

Lemma _make_backward_fn_eq (tr : Trainer) (l : Loop)
    (opt_idx : option nat) (optimizer : option Optimizer) :
  _make_backward_fn tr optimizer opt_idx l =
  (Ret (if negb (_skip_backward l) && automatic_optimization tr
        then Some (backward_fn_of tr optimizer opt_idx) else None), l).
Proof.
  unfold _make_backward_fn, bind, gets, ret. cbv beta.
  now destruct (negb (_skip_backward l) && automatic_optimization tr).
Qed.

(** C3. With a non-zero [accumulate_grad_batches], [_make_closure] builds,
    for every batch index [b], a closure whose zero-grad function is
    present exactly when [b mod accumulate_grad_batches = 0], automatic
    optimization is on and backward is not flagged to be skipped; it is
    [None] as soon as one of the three fails.  When present it is the
    function that runs [_on_before_zero_grad] and then
    [_optimizer_zero_grad]. *)
Theorem _make_closure_zero_grad_fn :
  forall (tr : Trainer) (l : Loop) (split_batch : Batch) (b : Z)
         (opt_idx : option nat) (optimizer : option Optimizer)
         (hiddens : option Tensor),
    accumulate_grad_batches tr <> 0 ->
    exists c,
      _make_closure tr split_batch b opt_idx optimizer hiddens l =
        (Ret c, set_closure_result None l) /\
      (zero_grad_fn c <> None <->
       b mod accumulate_grad_batches tr = 0 /\
       automatic_optimization tr = true /\
       _skip_backward l = false) /\
      (zero_grad_fn c <> None ->
       zero_grad_fn c = Some (zero_grad_fn_of tr b opt_idx optimizer)) /\
      (b mod accumulate_grad_batches tr <> 0 \/
       automatic_optimization tr = false \/
       _skip_backward l = true ->
       zero_grad_fn c = None).
Proof.
  intros tr l split_batch b opt_idx optimizer hiddens Hagb.
  eexists. split.
  - unfold _make_closure. unfold bind at 1. rewrite _make_backward_fn_eq.
    unfold bind at 1. rewrite _make_zero_grad_fn_eq by exact Hagb.
    reflexivity.
  - cbn [zero_grad_fn].
    destruct (b mod accumulate_grad_batches tr =? 0) eqn:Hm;
      [apply Z.eqb_eq in Hm | apply Z.eqb_neq in Hm];
      destruct (_skip_backward l), (automatic_optimization tr); cbn;
      repeat split; intros; try congruence; try tauto;
      intuition congruence.
Qed.

Lemma _make_closure_zero_grad_fn_witness :
  exists c,
    _make_closure sample_trainer [1; 2] 6 (Some 0%nat) (Some sgd) None __init__ =
      (Ret c, set_closure_result None __init__) /\
    zero_grad_fn c = Some (zero_grad_fn_of sample_trainer 6 (Some 0%nat) (Some sgd)).
Proof.
  destruct (_make_closure_zero_grad_fn sample_trainer __init__ [1; 2] 6
              (Some 0%nat) (Some sgd) None)
    as (c & Hc & Hiff & Hsome & _).
  - simpl. discriminate.
  - exists c. split; [exact Hc|].
    apply Hsome. apply Hiff. repeat split.
Defined.

(** ** [_update_running_loss] *)

(** C4. On a loop whose accumulation buffer has been set up,
    [_update_running_loss] first appends the current loss to the buffer
    (under automatic optimization only).  If the buffer is then non-empty,
    its mean times [accumulate_grad_batches] is pushed into the sliding
    window; if it is empty, the window is left alone.  In both cases the
    buffer is empty after the call, and nothing else of the loop changes. *)
Theorem _update_running_loss_resets_buffer :
  forall (tr : Trainer) (l : Loop) (buf : list Tensor)
         (current_loss : option Tensor),
    accumulated_loss l = Some buf ->
    (automatic_optimization tr = true -> current_loss <> None) ->
    let buffered :=
      if automatic_optimization tr then
        buf ++ match current_loss with Some t => [t] | None => [] end
      else buf in
    exists l',
      _update_running_loss tr current_loss l = (Ret tt, l') /\
      accumulated_loss l' = Some [] /\
      (buffered <> [] ->
       exists mean,
         accum_mean buffered = Some mean /\
         running_loss l' =
           window_push (tensor_mul mean (accumulate_grad_batches tr))
             (running_loss l)) /\
      (buffered = [] -> running_loss l' = running_loss l) /\
      l' = set_accumulated_loss (Some []) (set_running_loss (running_loss l') l).
Proof.
  intros tr l buf current_loss Hbuf Hcur buffered.
  unfold _update_running_loss.
  destruct (automatic_optimization tr) eqn:Hauto.
  - destruct current_loss as [t|]; [|exfalso; now apply Hcur].
    subst buffered.
    destruct (accum_mean (buf ++ [t])) as [mean|] eqn:Hmean;
      [|destruct buf; discriminate].
    unfold the_accumulated_loss, bind, gets, modify, ret, raise. cbv beta.
    repeat (first [rewrite Hbuf | rewrite Hmean]; cbn).
    eexists. split; [reflexivity|]. cbn. repeat split.
    + intros _. exists mean. split; reflexivity.
    + intros H. destruct buf; discriminate.
  - subst buffered.
    unfold the_accumulated_loss, bind, gets, modify, ret, raise. cbv beta.
    destruct (accum_mean buf) as [mean|] eqn:Hmean;
      repeat (first [rewrite Hbuf | rewrite Hmean]; cbn).
    + eexists. split; [reflexivity|]. cbn. repeat split.
      * intros _. exists mean. split; reflexivity.
      * intros ->. discriminate.
    + eexists. split; [reflexivity|]. cbn. repeat split.
      intros H. destruct buf; [congruence | discriminate].
Qed.

Lemma _update_running_loss_resets_buffer_witness :
  exists l',
    _update_running_loss sample_trainer (Some (mkTensor (3 # 1) false))
      (set_accumulated_loss (Some [mkTensor (1 # 1) false]) __init__)
    = (Ret tt, l') /\
    accumulated_loss l' = Some [] /\
    length (running_loss l') = 1%nat.
Proof.
  destruct (_update_running_loss_resets_buffer sample_trainer
              (set_accumulated_loss (Some [mkTensor (1 # 1) false]) __init__)
              [mkTensor (1 # 1) false] (Some (mkTensor (3 # 1) false)))
    as (l' & Hrun & Hempty & Hpush & _).
  - reflexivity.
  - discriminate.
  - exists l'. split; [exact Hrun | split; [exact Hempty|]].
    destruct Hpush as (mean & _ & Hw); [discriminate|].
    rewrite Hw. reflexivity.
Defined.

(** ** [_optimizer_step] *)

(** C6. Given an LBFGS optimizer while the trainer uses the native AMP
    backend, [_optimizer_step] raises a [MisconfigurationException] and
    leaves the loop object untouched: the step-ready counter keeps its
    value and no collaborator, in particular the model's
    [optimizer_step] hook, has been called. *)
Theorem _optimizer_step_lbfgs_native_amp :
  forall (tr : Trainer) (l : Loop) (optimizer : Optimizer)
         (opt_idx : option nat) (batch_idx : Z) (closure : Closure),
    is_LBFGS optimizer = true ->
    amp_backend tr = Some AMP_NATIVE ->
    exists l',
      _optimizer_step tr (Some optimizer) opt_idx batch_idx closure l =
        (Raise (MisconfigurationException amp_lbfgs_message), l') /\
      step_ready (optim_progress l') = step_ready (optim_progress l) /\
      trace l' = trace l /\
      l' = l.
Proof.
  intros tr l optimizer opt_idx batch_idx closure Hl Ha.
  exists l. unfold _optimizer_step. rewrite Hl, Ha. cbn.
  repeat split.
Qed.

Lemma _optimizer_step_lbfgs_native_amp_witness :
  exists l',
    _optimizer_step lbfgs_amp_trainer (Some lbfgs) (Some 0%nat) 3
      (mkClosure (ret None) None None) __init__ =
      (Raise (MisconfigurationException amp_lbfgs_message), l') /\
    step_ready (optim_progress l') = 0%nat /\
    trace l' = [] /\
    l' = __init__.
Proof.
  apply (_optimizer_step_lbfgs_native_amp lbfgs_amp_trainer __init__ lbfgs
           (Some 0%nat) 3 (mkClosure (ret None) None None));
    reflexivity.
Defined.

(** ** [run] *)

(** C7. For every batch index and every trainer, [run None batch_idx]
    returns signal 0 with the output [[[]]], one empty inner sequence
    whatever the number of optimizers.  Its only effect is the warning: no
    hook is called and no split is processed. *)
Theorem run_none_batch :
  forall (tr : Trainer) (batch_idx : Z) (l : Loop),
    run tr None batch_idx l =
      (Ret (mkRunOutput 0 (Some (Some [[]]))),
       add_event (EvWarn none_batch_warning) l) /\
    trace (snd (run tr None batch_idx l)) =
      trace l ++ [EvWarn none_batch_warning] /\
    _remaining_splits (snd (run tr None batch_idx l)) = _remaining_splits l /\
    batch_outputs (snd (run tr None batch_idx l)) = batch_outputs l.
Proof.
  intros tr batch_idx l. repeat split.
Qed.

(** ** [_training_step] *)

Lemma add_events_app (evs1 evs2 : list Event) (l : Loop) :
  add_events (evs1 ++ evs2) l = add_events evs2 (add_events evs1 l).
Proof.
  unfold add_events. apply fold_left_app.
Qed.

Lemma _training_step_eq (tr : Trainer) (l : Loop) (split_batch : Batch)
    (batch_idx : Z) (opt_idx : option nat) (hiddens : option Tensor) :
  let out := step_output tr split_batch batch_idx opt_idx hiddens in
  let l1 := add_events (step_events split_batch batch_idx opt_idx hiddens) l in
  _training_step tr split_batch batch_idx opt_idx hiddens l =
  match check_training_step_output tr (automatic_optimization tr) out with
  | Some e => (Raise e, l1)
  | None =>
      let l2 := set_hiddens (snd (process_training_step_output tr out)) l1 in
      match fst (process_training_step_output tr out) with
      | None => (Ret None, l2)
      | Some rc =>
          if automatic_optimization tr then
            match minimize rc with
            | None => (Raise TypeError, l2)
            | Some raw =>
                let cl := tensor_div raw (accumulate_grad_batches tr) in
                (Ret (Some (mkClosureResult (Some cl)
                              (Some (clone (detach cl))) rc)), l2)
            end
          else (Ret (Some (mkClosureResult None None rc)), l2)
      end
  end.
Proof.
  cbv zeta. unfold _training_step, step_output.
  unfold bind, emit, modify, ret, raise. cbn.
  destruct (check_training_step_output tr _ _); [reflexivity|].
  destruct (process_training_step_output tr _) as [[rc|] h]; cbn;
    [|reflexivity].
  destruct (automatic_optimization tr); [|reflexivity].
  destruct (minimize rc); reflexivity.
Qed.

(** C8. Under automatic optimization with a non-zero
    [accumulate_grad_batches], whenever the step output passes validation
    and yields a result collection holding a loss, [_training_step]
    returns a closure loss equal to that raw loss divided by
    [accumulate_grad_batches], still attached to the graph of the raw
    loss, and a display loss that is the detached clone of the closure
    loss: same value, not part of the graph. *)
Theorem _training_step_scales_loss :
  forall (tr : Trainer) (l : Loop) (split_batch : Batch) (batch_idx : Z)
         (opt_idx : option nat) (hiddens : option Tensor)
         (rc : ResultCollection) (raw : Tensor),
    automatic_optimization tr = true ->
    accumulate_grad_batches tr <> 0 ->
    let out := step_output tr split_batch batch_idx opt_idx hiddens in
    check_training_step_output tr true out = None ->
    fst (process_training_step_output tr out) = Some rc ->
    minimize rc = Some raw ->
    exists cl dl l',
      _training_step tr split_batch batch_idx opt_idx hiddens l =
        (Ret (Some (mkClosureResult (Some cl) (Some dl) rc)), l') /\
      cl = tensor_div raw (accumulate_grad_batches tr) /\
      (t_value cl * inject_Z (accumulate_grad_batches tr) == t_value raw)%Q /\
      t_in_graph cl = t_in_graph raw /\
      dl = clone (detach cl) /\
      (t_value dl == t_value cl)%Q /\
      t_in_graph dl = false.
Proof.
  intros tr l split_batch batch_idx opt_idx hiddens rc raw Hauto Hagb out
    Hcheck Hproc Hmin.
  rewrite _training_step_eq. cbv zeta. fold out.
  rewrite Hauto, Hcheck, Hproc, Hmin.
  do 3 eexists. split; [reflexivity|].
  repeat split; cbn; try reflexivity.
  field. intros H.
  apply Hagb. unfold inject_Z, Qeq in H. cbn in H. lia.
Qed.

Lemma _training_step_scales_loss_witness :
  exists cl dl l',
    _training_step lbfgs_amp_trainer [1; 2] 0 (Some 0%nat) None __init__ =
      (Ret (Some (mkClosureResult (Some cl) (Some dl)
                    (mkResults (Some (mkTensor (3 # 1) true))))), l') /\
    (t_value cl * inject_Z 4 == 3 # 1)%Q /\
    t_in_graph cl = true /\
    (t_value dl == t_value cl)%Q /\
    t_in_graph dl = false.
Proof.
  destruct (_training_step_scales_loss lbfgs_amp_trainer __init__ [1; 2] 0
              (Some 0%nat) None (mkResults (Some (mkTensor (3 # 1) true)))
              (mkTensor (3 # 1) true))
    as (cl & dl & l' & Hrun & _ & Hval & Hgraph & _ & Hdval & Hdgraph);
    try reflexivity.
  - simpl. discriminate.
  - exists cl, dl, l'. repeat split; assumption.
Defined.

(** C10. Whenever the step output passes validation, [_training_step]
    stores the hidden state extracted from the processed output before it
    looks at the result collection: the stored hidden state is the
    extracted one after the call, whatever the call then returns, and in
    particular when the result collection is absent and the call returns
    [None]. *)
Theorem _training_step_overwrites_hiddens :
  forall (tr : Trainer) (l : Loop) (split_batch : Batch) (batch_idx : Z)
         (opt_idx : option nat) (hiddens : option Tensor),
    let out := step_output tr split_batch batch_idx opt_idx hiddens in
    check_training_step_output tr (automatic_optimization tr) out = None ->
    _hiddens (snd (_training_step tr split_batch batch_idx opt_idx hiddens l))
      = snd (process_training_step_output tr out) /\
    (fst (process_training_step_output tr out) = None ->
     _training_step tr split_batch batch_idx opt_idx hiddens l =
       (Ret None,
        set_hiddens (snd (process_training_step_output tr out))
          (add_events (step_events split_batch batch_idx opt_idx hiddens) l))).
Proof.
  intros tr l split_batch batch_idx opt_idx hiddens out Hcheck.
  rewrite _training_step_eq. cbv zeta. fold out. rewrite Hcheck.
  split.
  - destruct (fst (process_training_step_output tr out)) as [rc|];
      [|reflexivity].
    destruct (automatic_optimization tr); [|reflexivity].
    destruct (minimize rc); reflexivity.
  - intros ->. reflexivity.
Qed.

Lemma _training_step_overwrites_hiddens_witness :
  _hiddens loop_with_hiddens = Some (mkTensor (5 # 1) false) /\
  fst (_training_step skipping_trainer [1; 2] 0 (Some 0%nat)
         (_hiddens loop_with_hiddens) loop_with_hiddens)
    = Ret None /\
  _hiddens
    (snd (_training_step skipping_trainer [1; 2] 0 (Some 0%nat)
            (_hiddens loop_with_hiddens) loop_with_hiddens))
    = None.
Proof.
  destruct (_training_step_overwrites_hiddens skipping_trainer
              loop_with_hiddens [1; 2] 0 (Some 0%nat)
              (_hiddens loop_with_hiddens)) as [Hh Hnone].
  - reflexivity.
  - split; [reflexivity|]. split.
    + rewrite Hnone by reflexivity. reflexivity.
    + rewrite Hh. reflexivity.
Defined.

(** ** [backward] *)

(** C5, as the code has it.  In [backward], outside an accumulation window
    and with a non-zero logging interval, gradient norms are computed
    exactly when norm tracking is enabled and [global_step + 1] is a
    multiple of [log_every_n_steps]; the gradients are then clipped
    through the accelerator, and the norms are logged only when the dict
    is not empty.  These calls, after the accelerator's backward, are all
    that happens, and the loss is returned. *)
Theorem backward_tracks_and_clips :
  forall (tr : Trainer) (l : Loop) (loss : Tensor)
         (optimizer : option Optimizer) (opt_idx : option nat),
    should_accumulate tr = false ->
    log_every_n_steps tr <> 0 ->
    let computed :=
      norm_positive (track_grad_norm tr)
      && ((global_step tr + 1) mod log_every_n_steps tr =? 0) in
    let norms := if computed then grad_norm tr (track_grad_norm tr) else [] in
    backward tr loss optimizer opt_idx l =
      (Ret loss,
       add_events (backward_events tr loss optimizer opt_idx computed norms) l)
    /\
    (computed = true <->
     norm_positive (track_grad_norm tr) = true /\
     (global_step tr + 1) mod log_every_n_steps tr = 0).
Proof.
  intros tr l loss optimizer opt_idx Hacc Hn computed norms.
  split.
  - unfold backward, _track_and_norm_grad, py_mod. rewrite Hacc.
    apply Z.eqb_neq in Hn. rewrite Hn.
    subst norms computed.
    unfold bind, emit, modify, ret. cbn.
    destruct (norm_positive (track_grad_norm tr)
              && ((global_step tr + 1) mod log_every_n_steps tr =? 0)); cbn;
      [destruct (grad_norm tr (track_grad_norm tr))|]; reflexivity.
  - subst computed. rewrite andb_true_iff, Z.eqb_eq. reflexivity.
Qed.

Lemma backward_tracks_and_clips_witness :
  backward sample_trainer (mkTensor (3 # 1) true) (Some sgd) (Some 0%nat) __init__
  = (Ret (mkTensor (3 # 1) true),
     add_events
       [EvAcceleratorBackward (mkTensor (3 # 1) true) (Some sgd) (Some 0%nat);
        EvGradNorm (NormP (2 # 1));
        EvClipGradients (Some sgd) (0 # 1) "norm";
        EvLogGradNorm [("grad_2.0_norm_total"%string, 1 # 1)]] __init__).
Proof.
  apply (proj1 (backward_tracks_and_clips sample_trainer __init__
                  (mkTensor (3 # 1) true) (Some sgd) (Some 0%nat)
                  eq_refl ltac:(discriminate))).
Defined.

(** C5, as the spec words it, fails: at global step 1 with a logging
    interval of 2 the norms are computed, although 1 is not a multiple
    of 2. *)
Lemma backward_norms_global_step_counterexample :
  should_accumulate sample_trainer = false /\
  norm_positive (track_grad_norm sample_trainer) = true /\
  global_step sample_trainer = 1 /\
  log_every_n_steps sample_trainer = 2 /\
  global_step sample_trainer mod log_every_n_steps sample_trainer <> 0 /\
  In (EvGradNorm (track_grad_norm sample_trainer))
     (trace (snd (backward sample_trainer (mkTensor (3 # 1) true) (Some sgd)
                    (Some 0%nat) __init__))).
Proof.
  repeat split; try reflexivity.
  - discriminate.
  - cbn. right. left. reflexivity.
Qed.

(** ** Frame: what leaves the restart state alone *)

Lemma keeps_ret {A} (a : A) : keeps (ret a).
Proof. intros l. reflexivity. Qed.

Lemma keeps_raise {A} (e : Exn) : keeps (@raise A e).
Proof. intros l. reflexivity. Qed.

Lemma keeps_gets {A} (f : Loop -> A) : keeps (gets f).
Proof. intros l. reflexivity. Qed.

Lemma keeps_modify (f : Loop -> Loop) :
  (forall l, resume_state (f l) = resume_state l) -> keeps (modify f).
Proof. intros H l. apply H. Qed.

Lemma keeps_emit (e : Event) : keeps (emit e).
Proof. intros l. reflexivity. Qed.

Lemma keeps_bind_post {A B} (m : M A) (k : A -> M B) :
  keeps m ->
  (forall l a l', m l = (Ret a, l') -> keeps (k a)) ->
  keeps (bind m k).
Proof.
  intros Hm Hk l. unfold bind.
  pose proof (Hm l) as Hl.
  destruct (m l) as [[a|e] l'] eqn:E; cbn in Hl.
  - rewrite (Hk l a l' E l'). exact Hl.
  - exact Hl.
Qed.

Lemma keeps_bind {A B} (m : M A) (k : A -> M B) :
  keeps m -> (forall a, keeps (k a)) -> keeps (bind m k).
Proof.
  intros Hm Hk. apply keeps_bind_post; [exact Hm | intros; apply Hk].
Qed.

Lemma keeps_when (c : bool) (body : M unit) : keeps body -> keeps (when c body).
Proof.
  intros H. destruct c; [exact H | apply keeps_ret].
Qed.

Lemma keeps_with_scope {A} (enter leave : Event) (body : M A) :
  keeps body -> keeps (with_scope enter leave body).
Proof.
  intros H l. unfold with_scope.
  pose proof (H (add_event enter l)) as Hl.
  destruct (body (add_event enter l)) as [r l']. exact Hl.
Qed.

Ltac keeps_step :=
  first
    [ apply keeps_ret
    | apply keeps_raise
    | apply keeps_gets
    | apply keeps_emit
    | apply keeps_modify; intros ?; reflexivity
    | apply keeps_when
    | apply keeps_with_scope
    | apply keeps_bind; [|intros ?]
    | match goal with
      | |- keeps (match ?x with _ => _ end) => destruct x
      end ].

Ltac keeps_auto := repeat keeps_step.

Lemma keeps_py_mod (a b : Z) : keeps (py_mod a b).
Proof. unfold py_mod. keeps_auto. Qed.

Lemma keeps_the_accumulated_loss : keeps the_accumulated_loss.
Proof. unfold the_accumulated_loss. keeps_auto. Qed.

Section Frame.

Variable tr : Trainer.

Lemma keeps__training_step split_batch batch_idx opt_idx hiddens :
  keeps (_training_step tr split_batch batch_idx opt_idx hiddens).
Proof. unfold _training_step. keeps_auto. Qed.

Lemma keeps__track_and_norm_grad optimizer :
  keeps (_track_and_norm_grad tr optimizer).
Proof.
  unfold _track_and_norm_grad.
  apply keeps_bind; [apply keeps_py_mod | intros r]. keeps_auto.
Qed.

Lemma keeps_backward loss optimizer opt_idx :
  keeps (backward tr loss optimizer opt_idx).
Proof.
  unfold backward. apply keeps_bind; [keeps_auto | intros _].
  apply keeps_bind; [|intros _; keeps_auto].
  destruct (negb (should_accumulate tr)); [|keeps_auto].
  apply keeps_bind; [apply keeps__track_and_norm_grad | intros d].
  keeps_auto.
Qed.

Lemma keeps_backward_fn_of optimizer opt_idx loss :
  keeps (backward_fn_of tr optimizer opt_idx loss).
Proof.
  unfold backward_fn_of.
  apply keeps_bind; [apply keeps_backward | intros _]. keeps_auto.
Qed.

Lemma keeps_zero_grad_fn_of batch_idx opt_idx optimizer :
  keeps (zero_grad_fn_of tr batch_idx opt_idx optimizer).
Proof.
  unfold zero_grad_fn_of, _on_before_zero_grad, _optimizer_zero_grad,
    modify_progress.
  keeps_auto.
Qed.

Lemma keeps__make_closure split_batch batch_idx opt_idx optimizer hiddens :
  keeps (_make_closure tr split_batch batch_idx opt_idx optimizer hiddens).
Proof.
  unfold _make_closure, _make_backward_fn, _make_zero_grad_fn.
  apply keeps_bind; [keeps_auto | intros bw].
  apply keeps_bind; [|intros z; keeps_auto].
  apply keeps_bind; [apply keeps_py_mod | intros r]. keeps_auto.
Qed.

Lemma _make_closure_closure_keeps split_batch batch_idx opt_idx optimizer
    hiddens l c l' :
  _make_closure tr split_batch batch_idx opt_idx optimizer hiddens l =
    (Ret c, l') ->
  closure_keeps c.
Proof.
  unfold _make_closure. unfold bind at 1. rewrite _make_backward_fn_eq.
  unfold bind at 1.
  destruct (_make_zero_grad_fn tr batch_idx opt_idx optimizer l)
    as [[z|e] l1] eqn:Ez; [|discriminate].
  unfold bind, modify, ret. intros [= <- _].
  repeat split; cbn.
  - apply keeps__training_step.
  - intros bw Hbw t.
    destruct (negb (_skip_backward l) && automatic_optimization tr);
      inversion Hbw; subst. apply keeps_backward_fn_of.
  - intros zg ->.
    unfold _make_zero_grad_fn, py_mod in Ez.
    destruct (accumulate_grad_batches tr =? 0); [discriminate|].
    unfold bind, gets, ret in Ez. cbv beta in Ez.
    destruct (negb (_skip_backward l) && automatic_optimization tr
              && (batch_idx mod accumulate_grad_batches tr =? 0));
      inversion Ez; subst. apply keeps_zero_grad_fn_of.
Qed.

Lemma keeps_closure_call c : closure_keeps c -> keeps (closure_call c).
Proof.
  intros (Hs & Hb & Hz). unfold closure_call.
  apply keeps_bind.
  { destruct (zero_grad_fn c) as [z|]; [now apply Hz | apply keeps_ret]. }
  intros _. apply keeps_bind; [exact Hs | intros so].
  apply keeps_bind; [|intros r; keeps_auto].
  destruct so as [r|]; [|apply keeps_ret].
  destruct (backward_fn c) as [bw|]; [|keeps_auto].
  destruct (closure_loss r) as [cl|]; [|keeps_auto].
  apply keeps_bind; [now apply Hb | intros cl']. keeps_auto.
Qed.

Lemma keeps_repeat_call n c : closure_keeps c -> keeps (repeat_call n c).
Proof.
  intros Hc. induction n as [|n IH]; cbn.
  - apply keeps_ret.
  - apply keeps_bind; [now apply keeps_closure_call | intros _; exact IH].
Qed.

Lemma keeps__optimizer_step optimizer opt_idx batch_idx c :
  closure_keeps c -> keeps (_optimizer_step tr optimizer opt_idx batch_idx c).
Proof.
  intros Hc. unfold _optimizer_step, modify_progress.
  match goal with |- keeps (if ?b then _ else _) => destruct b end;
    [apply keeps_raise|].
  apply keeps_bind; [keeps_auto | intros _].
  apply keeps_bind; [keeps_auto | intros _].
  apply keeps_bind; [now apply keeps_repeat_call | intros _]. keeps_auto.
Qed.

Lemma keeps__update_running_loss current_loss :
  keeps (_update_running_loss tr current_loss).
Proof.
  unfold _update_running_loss.
  apply keeps_bind.
  { destruct (automatic_optimization tr); [|apply keeps_ret].
    apply keeps_bind; [apply keeps_the_accumulated_loss | intros buf].
    keeps_auto. }
  intros _.
  apply keeps_bind; [apply keeps_the_accumulated_loss | intros buf].
  apply keeps_bind.
  { destruct (accum_mean buf); [|apply keeps_ret].
    apply keeps_bind; [apply keeps_the_accumulated_loss | intros buf'].
    keeps_auto. }
  intros _.
  apply keeps_bind; [apply keeps_the_accumulated_loss | intros _].
  keeps_auto.
Qed.

Lemma keeps__run_optimization batch_idx split_batch opt_idx optimizer :
  keeps (_run_optimization tr batch_idx split_batch opt_idx optimizer).
Proof.
  unfold _run_optimization, _run_optimization_start, _run_optimization_end,
    get_result.
  apply keeps_bind; [keeps_auto | intros _].
  apply keeps_bind; [keeps_auto | intros hiddens].
  apply keeps_bind_post; [apply keeps__make_closure | intros l c l' Hc].
  apply _make_closure_closure_keeps in Hc.
  apply keeps_bind.
  { destruct (should_accumulate tr).
    - apply keeps_with_scope.
      apply keeps_bind; [now apply keeps_closure_call | intros; keeps_auto].
    - destruct (automatic_optimization tr).
      + now apply keeps__optimizer_step.
      + apply keeps_bind; [now apply keeps_closure_call | intros; keeps_auto]. }
  intros _. apply keeps_bind; [keeps_auto | intros result].
  apply keeps_bind.
  { destruct result; [apply keeps__update_running_loss | apply keeps_ret]. }
  intros _. keeps_auto.
Qed.

Lemma keeps_append_batch_output i rc : keeps (append_batch_output i rc).
Proof. unfold append_batch_output. keeps_auto. Qed.

End Frame.

(** ** Restarting in the middle of a batch *)

Lemma bind_cong {A B} (m : M A) (k1 k2 : A -> M B) (l : Loop) :
  (forall a l', m l = (Ret a, l') -> k1 a l' = k2 a l') ->
  bind m k1 l = bind m k2 l.
Proof.
  intros H. unfold bind.
  destruct (m l) as [[a|e] l']; [now apply H | reflexivity].
Qed.

Lemma keeps_result {A} (m : M A) (l : Loop) (r : Outcome A) (l' : Loop) :
  keeps m -> m l = (r, l') -> resume_state l' = resume_state l.
Proof.
  intros Hk E. specialize (Hk l). now rewrite E in Hk.
Qed.

Lemma seq_sorted (n : nat) : forall s, StronglySorted lt (seq s n).
Proof.
  induction n as [|n IH]; intros s; cbn; constructor.
  - apply IH.
  - apply Forall_forall. intros x Hx. apply in_seq in Hx. lia.
Qed.

Lemma keeps_get_active_optimizers (tr : Trainer) (batch_idx : option Z) :
  keeps (get_active_optimizers tr batch_idx).
Proof.
  unfold get_active_optimizers, optimizer_freq_cumsum, py_last. keeps_auto.
Qed.

(** The active optimizers always come in increasing index order. *)
Lemma get_active_optimizers_sorted (tr : Trainer) (batch_idx : option Z)
    (l : Loop) (active : list (nat * Optimizer)) (l' : Loop) :
  get_active_optimizers tr batch_idx l = (Ret active, l') ->
  StronglySorted lt (map fst active).
Proof.
  unfold get_active_optimizers.
  destruct (optimizer_frequencies tr) as [|f0 fr].
  - intros [= <- _]. rewrite enumerate_fst. apply seq_sorted.
  - unfold bind.
    destruct (optimizer_freq_cumsum tr l) as [[cs|e] l1]; [|discriminate].
    destruct (py_last cs l1) as [[period|e] l2]; [|discriminate].
    destruct batch_idx as [b|]; [|discriminate].
    destruct (optimizer_freq_cumsum tr l2) as [[cs'|e] l3]; [|discriminate].
    destruct (nth_error (optimizers tr) _) as [o|]; [|discriminate].
    intros [= <- _]. cbn. repeat constructor.
Qed.

Lemma not_skipped_all (k : nat) (active : list (nat * Optimizer)) :
  Forall (fun i => (k <= i)%nat) (map fst active) ->
  not_skipped k active = active.
Proof.
  unfold not_skipped.
  induction active as [|[i o] rest IH]; cbn; intros H; [reflexivity|].
  inversion H as [|? ? Hi Hrest]; subst.
  apply Nat.leb_le in Hi. rewrite Hi. f_equal. now apply IH.
Qed.

(** The loop of [advance] on a restarting loop is the plain loop over the
    optimizers whose index is not below the recorded one. *)
Lemma advance_optimizers_restarting (tr : Trainer) (batch_idx : Z)
    (split_batch : Batch) :
  forall (active : list (nat * Optimizer)) (l : Loop),
    restarting l = true ->
    StronglySorted lt (map fst active) ->
    advance_optimizers tr batch_idx split_batch active l =
    run_optimizers tr batch_idx split_batch
      (not_skipped (optimizer_idx (optim_progress l)) active) l.
Proof.
  induction active as [|[i o] rest IH]; intros l Hr Hs; [reflexivity|].
  inversion Hs as [|? ? Hs' Hall]; subst.
  cbn [advance_optimizers]. unfold bind at 1 2. unfold gets.
  rewrite Hr. cbn [andb].
  unfold not_skipped. cbn [filter fst]. fold (not_skipped (optimizer_idx (optim_progress l)) rest).
  destruct (i <? optimizer_idx (optim_progress l))%nat eqn:Hlt.
  - apply Nat.ltb_lt in Hlt.
    replace (optimizer_idx (optim_progress l) <=? i)%nat with false
      by (symmetry; apply Nat.leb_gt; exact Hlt).
    now apply IH.
  - apply Nat.ltb_ge in Hlt.
    replace (optimizer_idx (optim_progress l) <=? i)%nat with true
      by (symmetry; apply Nat.leb_le; exact Hlt).
    assert (Hrest : forall k, (k <= i)%nat -> not_skipped k rest = rest).
    { intros k Hk. apply not_skipped_all.
      eapply Forall_impl; [|exact Hall]. cbn. intros; lia. }
    rewrite Hrest by exact Hlt.
    cbn [run_optimizers].
    apply bind_cong. intros [] l1 E1.
    assert (H1 : resume_state l1 = (true, i)).
    { unfold modify_progress, modify in E1. inversion E1; subst.
      unfold resume_state. cbn. now rewrite Hr. }
    apply bind_cong. intros result l2 E2.
    apply (keeps_result _ _ _ _ (keeps__run_optimization tr _ _ _ _)) in E2.
    apply bind_cong. intros [] l3 E3.
    assert (H3 : resume_state l3 = (true, i)).
    { rewrite <- H1, <- E2. 
      destruct result as [r|].
      - eapply keeps_result; [apply keeps_append_batch_output | exact E3].
      - inversion E3; reflexivity. }
    unfold resume_state in H3. inversion H3 as [[Hr3 Hi3]].
    rewrite IH by assumption.
    rewrite Hi3. now rewrite Hrest.
Qed.

Lemma skipn_nth {A} (l : list A) : forall n x,
  nth_error l n = Some x -> skipn n l = x :: skipn (S n) l.
Proof.
  induction l as [|y r IH]; intros [|n] x; cbn; try discriminate.
  - now intros [= ->].
  - intros H. now apply IH.
Qed.

Lemma not_skipped_combine_seq (k : nat) (l : list Optimizer) : forall s,
  not_skipped k (combine (seq s (length l)) l) =
  skipn (k - s) (combine (seq s (length l)) l).
Proof.
  unfold not_skipped.
  induction l as [|x r IH]; intros s; cbn [length seq combine filter fst].
  - now rewrite skipn_nil.
  - destruct (k <=? s)%nat eqn:Hk.
    + apply Nat.leb_le in Hk.
      replace (k - s)%nat with 0%nat by lia.
      rewrite IH. replace (k - S s)%nat with 0%nat by lia. reflexivity.
    + apply Nat.leb_gt in Hk.
      replace (k - s)%nat with (S (k - S s)) by lia.
      rewrite IH. reflexivity.
Qed.

Lemma not_skipped_enumerate (k : nat) (l : list Optimizer) :
  not_skipped k (enumerate l) = skipn k (enumerate l).
Proof.
  unfold enumerate. rewrite not_skipped_combine_seq. now rewrite Nat.sub_0_r.
Qed.

(** C2. When the loop is restarting with recorded progress value
    [optimizer_idx = k], [advance] under automatic optimization does what
    the plain optimizer loop does on the active optimizers that are not
    skipped: exactly those of index at least [k], in order.  Every active
    index strictly below [k] is skipped, and index [k] is not: when all
    optimizers are active and [k] is one of them, it is the first to be
    run. *)
Theorem advance_restarting_resumes :
  forall (tr : Trainer) (batch : Batch) (batch_idx : Z) (l : Loop) (k : nat),
    automatic_optimization tr = true ->
    restarting l = true ->
    optimizer_idx (optim_progress l) = k ->
    advance tr batch batch_idx l = advance_resuming tr k batch batch_idx l /\
    (forall active i optimizer,
       In (i, optimizer) (not_skipped k active) <->
       In (i, optimizer) active /\ (k <= i)%nat) /\
    (forall optimizer,
       optimizer_frequencies tr = [] ->
       nth_error (optimizers tr) k = Some optimizer ->
       forall l0 active l1,
         get_active_optimizers tr (Some batch_idx) l0 = (Ret active, l1) ->
         not_skipped k active = (k, optimizer) :: skipn (S k) active).
Proof.
  intros tr batch batch_idx l k Hauto Hr Hk.
  split; [|split].
  - unfold advance, advance_resuming. rewrite Hauto.
    apply bind_cong. intros rs l0 E0.
    unfold gets in E0. inversion E0; subst l0 rs. clear E0.
    destruct (_remaining_splits l) as [[|[split_idx split_batch] rest]|];
      try reflexivity.
    apply bind_cong. intros [] l1 E1.
    apply bind_cong. intros [] l2 E2.
    apply bind_cong. intros [] l3 E3.
    apply bind_cong. intros active l4 E4.
    assert (H4 : resume_state l4 = resume_state l).
    { unfold modify in E1, E2. unfold emit, modify in E3.
      inversion E1; inversion E2; inversion E3; subst.
      apply (keeps_result _ _ _ _ (keeps_get_active_optimizers tr _)) in E4.
      rewrite E4. reflexivity. }
    unfold resume_state in H4. inversion H4 as [[Hr4 Hi4]].
    rewrite advance_optimizers_restarting.
    + rewrite Hi4, Hk. reflexivity.
    + congruence.
    + eapply get_active_optimizers_sorted. exact E4.
  - intros active i optimizer. unfold not_skipped.
    rewrite filter_In. cbn. rewrite Nat.leb_le. reflexivity.
  - intros optimizer Hf Hnth l0 active l1 E.
    unfold get_active_optimizers in E. rewrite Hf in E.
    inversion E; subst.
    rewrite not_skipped_enumerate. apply skipn_nth.
    rewrite enumerate_nth, Hnth. reflexivity.
Qed.

Lemma advance_restarting_resumes_witness :
  advance plain_trainer [1; 2] 0 restarted_loop =
    advance_resuming plain_trainer 1 [1; 2] 0 restarted_loop /\
  not_skipped 1 (enumerate (optimizers plain_trainer)) = [(1%nat, adam)].
Proof.
  destruct (advance_restarting_resumes plain_trainer [1; 2] 0 restarted_loop
              1%nat eq_refl eq_refl eq_refl) as (Hadv & _ & Hfirst).
  split; [exact Hadv|].
  exact (Hfirst adam eq_refl eq_refl __init__
           (enumerate (optimizers plain_trainer)) __init__ eq_refl).
Defined.

(** * Further properties of the loop *)

(** ** The shape of [_run_optimization] *)

Lemma bind_assoc {A B C} (m : M A) (k : A -> M B) (h : B -> M C) (l : Loop) :
  bind (bind m k) h l = bind m (fun a => bind (k a) h) l.
Proof.
  unfold bind. destruct (m l) as [[a|e] l']; reflexivity.
Qed.

(** [_run_optimization] toggles the optimizer, reads the stored hidden
    state, optimizes, untoggles and returns the result. *)
Lemma _run_optimization_split (tr : Trainer) (batch_idx : Z)
    (split_batch : Batch) (opt_idx : option nat)
    (optimizer : option Optimizer) (l : Loop) :
  _run_optimization tr batch_idx split_batch opt_idx optimizer l =
  (_run_optimization_start tr opt_idx optimizer;;
   hiddens <- gets _hiddens;;
   result <- optimization_inner tr batch_idx split_batch opt_idx optimizer
               hiddens;;
   _run_optimization_end tr opt_idx;;
   ret result) l.
Proof.
  unfold _run_optimization, optimization_inner.
  apply bind_cong. intros _ l1 _.
  apply bind_cong. intros hiddens l2 _.
  rewrite bind_assoc. apply bind_cong. intros closure l3 _.
  rewrite bind_assoc. apply bind_cong. intros _ l4 _.
  rewrite bind_assoc. apply bind_cong. intros result l5 _.
  rewrite bind_assoc. apply bind_cong. intros _ l6 _.
  reflexivity.
Qed.

(** ** Stability along the structure of the loop *)

Section Stable.

Variable R : Loop -> Loop -> Prop.
Hypothesis R_refl : forall l, R l l.
Hypothesis R_trans : forall l1 l2 l3, R l1 l2 -> R l2 l3 -> R l1 l3.

Lemma stable_ret {A} (a : A) : stable R (ret a).
Proof. intros l. apply R_refl. Qed.

Lemma stable_raise {A} (e : Exn) : stable R (@raise A e).
Proof. intros l. apply R_refl. Qed.

Lemma stable_gets {A} (f : Loop -> A) : stable R (gets f).
Proof. intros l. apply R_refl. Qed.

Lemma stable_modify (f : Loop -> Loop) :
  (forall l, R l (f l)) -> stable R (modify f).
Proof. intros H l. apply H. Qed.

Lemma stable_bind_post {A B} (m : M A) (k : A -> M B) :
  stable R m ->
  (forall l a l', m l = (Ret a, l') -> stable R (k a)) ->
  stable R (bind m k).
Proof.
  intros Hm Hk l. unfold bind.
  pose proof (Hm l) as Hl.
  destruct (m l) as [[a|e] l'] eqn:E; cbn in Hl; [|exact Hl].
  eapply R_trans; [exact Hl | apply (Hk l a l' E)].
Qed.

Lemma stable_bind {A B} (m : M A) (k : A -> M B) :
  stable R m -> (forall a, stable R (k a)) -> stable R (bind m k).
Proof.
  intros Hm Hk. apply stable_bind_post; [exact Hm | intros; apply Hk].
Qed.

Lemma stable_when (c : bool) (body : M unit) :
  stable R body -> stable R (when c body).
Proof.
  intros H. destruct c; [exact H | apply stable_ret].
Qed.

Lemma stable_with_scope {A} (enter leave : Event) (body : M A) :
  (forall l, R l (add_event enter l)) ->
  (forall l, R l (add_event leave l)) ->
  stable R body -> stable R (with_scope enter leave body).
Proof.
  intros He Hl Hb l. unfold with_scope.
  pose proof (Hb (add_event enter l)) as H.
  destruct (body (add_event enter l)) as [r l']. cbn in *.
  eapply R_trans; [apply He|]. eapply R_trans; [exact H | apply Hl].
Qed.

Lemma stable_py_mod (a b : Z) : stable R (py_mod a b).
Proof.
  unfold py_mod. destruct (b =? 0); [apply stable_raise | apply stable_ret].
Qed.

Lemma stable_the_accumulated_loss : stable R the_accumulated_loss.
Proof.
  unfold the_accumulated_loss. apply stable_bind; [apply stable_gets|].
  intros [buf|]; [apply stable_ret | apply stable_raise].
Qed.

Hypothesis R_closure_result : forall v l, R l (set_closure_result v l).

Lemma stable_closure_call (c : Closure) :
  closure_stable R c -> stable R (closure_call c).
Proof.
  intros (Hs & Hb & Hz). unfold closure_call.
  apply stable_bind.
  { destruct (zero_grad_fn c) as [z|]; [now apply Hz | apply stable_ret]. }
  intros _. apply stable_bind; [exact Hs | intros so].
  apply stable_bind.
  - destruct so as [r|]; [|apply stable_ret].
    destruct (backward_fn c) as [bw|]; [|apply stable_ret].
    destruct (closure_loss r) as [cl|]; [|apply stable_ret].
    apply stable_bind; [now apply Hb | intros cl'; apply stable_ret].
  - intros r. apply stable_bind; [|intros _; apply stable_ret].
    apply stable_modify. apply R_closure_result.
Qed.

Lemma stable_repeat_call (n : nat) (c : Closure) :
  closure_stable R c -> stable R (repeat_call n c).
Proof.
  intros Hc. induction n as [|n IH]; cbn.
  - apply stable_ret.
  - apply stable_bind; [now apply stable_closure_call | intros _; exact IH].
Qed.

(** One optimization of one split with one optimizer. *)

Variable tr : Trainer.
Variable batch_idx : Z.
Variable split_batch : Batch.
Variable opt_idx : option nat.
Variable optimizer : option Optimizer.

Section Inner.

Variable hiddens : option Tensor.

Hypothesis R_step :
  stable R (_training_step tr split_batch batch_idx opt_idx hiddens).
Hypothesis R_backward :
  automatic_optimization tr = true ->
  forall t, stable R (backward_fn_of tr optimizer opt_idx t).
Hypothesis R_zero_grad :
  automatic_optimization tr = true ->
  stable R (zero_grad_fn_of tr batch_idx opt_idx optimizer).

Lemma stable__make_closure :
  stable R (_make_closure tr split_batch batch_idx opt_idx optimizer hiddens).
Proof.
  unfold _make_closure, _make_backward_fn, _make_zero_grad_fn.
  apply stable_bind.
  { apply stable_bind; [apply stable_gets | intros skip].
    destruct (negb skip && automatic_optimization tr); apply stable_ret. }
  intros bw. apply stable_bind.
  { apply stable_bind; [apply stable_py_mod | intros r].
    apply stable_bind; [apply stable_gets | intros skip].
    destruct (negb skip && automatic_optimization tr && (r =? 0));
      apply stable_ret. }
  intros z. apply stable_bind; [|intros _; apply stable_ret].
  apply stable_modify. apply R_closure_result.
Qed.

Lemma made_closure_stable l c l' :
  _make_closure tr split_batch batch_idx opt_idx optimizer hiddens l =
    (Ret c, l') ->
  closure_stable R c.
Proof.
  unfold _make_closure. unfold bind at 1. rewrite _make_backward_fn_eq.
  unfold bind at 1.
  destruct (_make_zero_grad_fn tr batch_idx opt_idx optimizer l)
    as [[z|e] l1] eqn:Ez; [|discriminate].
  unfold bind, modify, ret. intros [= <- _].
  repeat split; cbn.
  - apply R_step.
  - intros bw Hbw t.
    destruct (automatic_optimization tr) eqn:Hauto.
    + destruct (negb (_skip_backward l)); inversion Hbw; subst.
      apply R_backward. reflexivity.
    + rewrite andb_false_r in Hbw. discriminate.
  - intros zg ->.
    unfold _make_zero_grad_fn, py_mod in Ez.
    destruct (accumulate_grad_batches tr =? 0); [discriminate|].
    unfold bind, gets, ret in Ez. cbv beta in Ez.
    destruct (automatic_optimization tr) eqn:Hauto.
    + destruct (negb (_skip_backward l) && true
                && (batch_idx mod accumulate_grad_batches tr =? 0));
        inversion Ez; subst. apply R_zero_grad. reflexivity.
    + rewrite andb_false_r in Ez. inversion Ez.
Qed.

Hypothesis R_sync :
  should_accumulate tr = true ->
  forall l, R l (add_event EvBlockSyncEnter l) /\
            R l (add_event EvBlockSyncExit l).
Hypothesis R_optimizer_step :
  automatic_optimization tr = true ->
  should_accumulate tr = false ->
  forall c, closure_stable R c ->
            stable R (_optimizer_step tr optimizer opt_idx batch_idx c).
Hypothesis R_update : forall t, stable R (_update_running_loss tr t).

Lemma stable_optimization_inner :
  stable R
    (optimization_inner tr batch_idx split_batch opt_idx optimizer hiddens).
Proof.
  unfold optimization_inner, get_result.
  apply stable_bind_post; [apply stable__make_closure | intros l c l' Hc].
  apply made_closure_stable in Hc.
  apply stable_bind.
  { destruct (should_accumulate tr) eqn:Hacc.
    - apply stable_with_scope;
        [intros l0; apply (R_sync eq_refl l0)
        |intros l0; apply (R_sync eq_refl l0)|].
      apply stable_bind; [now apply stable_closure_call|].
      intros _; apply stable_ret.
    - destruct (automatic_optimization tr) eqn:Hauto.
      + now apply R_optimizer_step.
      + apply stable_bind; [now apply stable_closure_call|].
        intros _; apply stable_ret. }
  intros _. apply stable_bind; [apply stable_gets | intros result].
  apply stable_bind; [|intros _; apply stable_ret].
  destruct result; [apply R_update | apply stable_ret].
Qed.

End Inner.

Hypothesis R_step : forall hiddens,
  stable R (_training_step tr split_batch batch_idx opt_idx hiddens).
Hypothesis R_backward :
  automatic_optimization tr = true ->
  forall t, stable R (backward_fn_of tr optimizer opt_idx t).
Hypothesis R_zero_grad :
  automatic_optimization tr = true ->
  stable R (zero_grad_fn_of tr batch_idx opt_idx optimizer).
Hypothesis R_toggle :
  automatic_optimization tr = true ->
  forall l, R l (add_event (EvToggleOptimizer optimizer opt_idx) l).
Hypothesis R_untoggle :
  automatic_optimization tr = true ->
  forall l, R l (add_event (EvUntoggleOptimizer opt_idx) l).
Hypothesis R_sync :
  should_accumulate tr = true ->
  forall l, R l (add_event EvBlockSyncEnter l) /\
            R l (add_event EvBlockSyncExit l).
Hypothesis R_optimizer_step :
  automatic_optimization tr = true ->
  should_accumulate tr = false ->
  forall c, closure_stable R c ->
            stable R (_optimizer_step tr optimizer opt_idx batch_idx c).
Hypothesis R_update : forall t, stable R (_update_running_loss tr t).

Lemma stable__run_optimization :
  stable R (_run_optimization tr batch_idx split_batch opt_idx optimizer).
Proof.
  intros l. rewrite _run_optimization_split. revert l.
  unfold _run_optimization_start, _run_optimization_end.
  apply stable_bind.
  { destruct (automatic_optimization tr) eqn:Hauto; [|apply stable_ret].
    apply stable_when. apply stable_modify. now apply R_toggle. }
  intros _. apply stable_bind; [apply stable_gets | intros hiddens].
  apply stable_bind.
  { apply stable_optimization_inner; try assumption. apply R_step. }
  intros result. apply stable_bind; [|intros _; apply stable_ret].
  destruct (automatic_optimization tr) eqn:Hauto; [|apply stable_ret].
  apply stable_when. apply stable_modify. now apply R_untoggle.
Qed.

End Stable.

Section StableAdvance.

Variable R : Loop -> Loop -> Prop.
Hypothesis R_refl : forall l, R l l.
Hypothesis R_trans : forall l1 l2 l3, R l1 l2 -> R l2 l3 -> R l1 l3.

Variable tr : Trainer.
Variable batch_idx : Z.
Variable split_batch : Batch.

Lemma stable_append_batch_output (i : nat) (rc : ResultCollection) :
  (forall v l, R l (set_batch_outputs v l)) ->
  stable R (append_batch_output i rc).
Proof.
  intros R_batch_outputs. unfold append_batch_output.
  apply (stable_bind _ R_trans); [apply (stable_gets _ R_refl) | intros bo].
  destruct bo as [outs|]; [|apply (stable_raise _ R_refl)].
  destruct (nth_error outs i) as [row|]; [|apply (stable_raise _ R_refl)].
  apply stable_modify. intros l. apply R_batch_outputs.
Qed.

Hypothesis R_cumsum : forall v l, R l (set_optimizer_freq_cumsum v l).

Lemma stable_optimizer_freq_cumsum : stable R (optimizer_freq_cumsum tr).
Proof.
  unfold optimizer_freq_cumsum.
  apply (stable_bind _ R_trans); [apply (stable_gets _ R_refl) | intros c].
  destruct c as [cs|]; [apply (stable_ret _ R_refl)|].
  apply (stable_bind _ R_trans);
    [apply stable_modify; intros l0; apply R_cumsum
    |intros _; apply (stable_ret _ R_refl)].
Qed.

Lemma stable_get_active_optimizers (b : option Z) :
  stable R (get_active_optimizers tr b).
Proof.
  unfold get_active_optimizers, py_last.
  destruct (optimizer_frequencies tr) as [|f0 fr];
    [apply (stable_ret _ R_refl)|].
  apply (stable_bind _ R_trans);
    [apply stable_optimizer_freq_cumsum | intros cs].
  apply (stable_bind _ R_trans).
  { destruct (rev cs); [apply (stable_raise _ R_refl)
                       |apply (stable_ret _ R_refl)]. }
  intros period. destruct b as [b|]; [|apply (stable_raise _ R_refl)].
  apply (stable_bind _ R_trans);
    [apply stable_optimizer_freq_cumsum | intros cs'].
  destruct (nth_error (optimizers tr) _);
    [apply (stable_ret _ R_refl) | apply (stable_raise _ R_refl)].
Qed.

Hypothesis R_append : forall i rc, stable R (append_batch_output i rc).
Hypothesis R_optimizer_idx : forall i l,
  R l (set_optim_progress (set_optimizer_idx i (optim_progress l)) l).
Hypothesis R_run : forall i o,
  stable R (_run_optimization tr batch_idx split_batch (Some i) (Some o)).

Lemma stable_run_optimizers (active : list (nat * Optimizer)) :
  stable R (run_optimizers tr batch_idx split_batch active).
Proof.
  induction active as [|[i o] rest IH]; cbn [run_optimizers].
  - apply (stable_ret _ R_refl).
  - apply (stable_bind _ R_trans).
    { apply stable_modify. intros l. apply R_optimizer_idx. }
    intros _. apply (stable_bind _ R_trans); [apply R_run | intros result].
    apply (stable_bind _ R_trans); [|intros _; exact IH].
    destruct result; [apply R_append | apply (stable_ret _ R_refl)].
Qed.

Lemma stable_advance_optimizers (active : list (nat * Optimizer)) :
  stable R (advance_optimizers tr batch_idx split_batch active).
Proof.
  induction active as [|[i o] rest IH]; cbn [advance_optimizers].
  - apply (stable_ret _ R_refl).
  - apply (stable_bind _ R_trans); [apply (stable_gets _ R_refl) | intros r].
    apply (stable_bind _ R_trans); [apply (stable_gets _ R_refl) | intros k].
    destruct (r && (i <? k)%nat); [exact IH|].
    apply (stable_bind _ R_trans).
    { apply stable_modify. intros l. apply R_optimizer_idx. }
    intros _. apply (stable_bind _ R_trans); [apply R_run | intros result].
    apply (stable_bind _ R_trans); [|intros _; exact IH].
    destruct result; [apply R_append | apply (stable_ret _ R_refl)].
Qed.

End StableAdvance.

(** Discharging the steps of a computation built from the primitives;
    [fin] proves that one primitive update is in the relation. *)
Ltac stable_step Hrefl Htrans fin :=
  first
    [ apply (stable_ret _ Hrefl)
    | apply (stable_raise _ Hrefl)
    | apply (stable_gets _ Hrefl)
    | apply (stable_py_mod _ Hrefl)
    | apply (stable_the_accumulated_loss _ Hrefl Htrans)
    | apply stable_modify; intros ?; fin
    | apply (stable_when _ Hrefl)
    | apply (stable_bind _ Htrans); [|intros ?]
    | match goal with
      | |- stable _ (match ?x with _ => _ end) => destruct x
      end ].

Ltac stable_auto Hrefl Htrans fin := repeat (stable_step Hrefl Htrans fin).

(** The parts of one optimization, for a relation that every primitive
    update used there respects. *)
Ltac stable_units Hrefl Htrans fin :=
  first
    [ unfold _training_step; solve [stable_auto Hrefl Htrans fin]
    | unfold backward_fn_of, backward, _track_and_norm_grad;
      solve [stable_auto Hrefl Htrans fin]
    | unfold zero_grad_fn_of, _on_before_zero_grad, _optimizer_zero_grad,
        modify_progress;
      solve [stable_auto Hrefl Htrans fin]
    | unfold _update_running_loss; solve [stable_auto Hrefl Htrans fin] ].

(** The optimizer step, for a relation that the step counters and the
    call of the model hook respect. *)
Lemma stable__optimizer_step (R : Loop -> Loop -> Prop)
    (R_refl : forall l, R l l)
    (R_trans : forall l1 l2 l3, R l1 l2 -> R l2 l3 -> R l1 l3)
    (tr : Trainer) (optimizer : option Optimizer) (opt_idx : option nat)
    (batch_idx : Z) (c : Closure) :
  (forall v l, R l (set_closure_result v l)) ->
  (forall l, R l (set_optim_progress (incr_step_ready (optim_progress l)) l)) ->
  (forall l,
     R l (set_optim_progress (incr_step_completed (optim_progress l)) l)) ->
  (forall tpu amp lbfgs l,
     R l (add_event
            (EvModelOptimizerStep (current_epoch tr) batch_idx optimizer
               opt_idx tpu amp lbfgs) l)) ->
  closure_stable R c ->
  stable R (_optimizer_step tr optimizer opt_idx batch_idx c).
Proof.
  intros Hcr Hready Hcompleted Hev Hc. unfold _optimizer_step, modify_progress.
  match goal with |- stable _ (if ?b then _ else _) => destruct b end;
    [apply (stable_raise _ R_refl)|].
  apply (stable_bind _ R_trans);
    [apply stable_modify; exact Hready | intros _].
  apply (stable_bind _ R_trans);
    [apply stable_modify; intros l; apply Hev | intros _].
  apply (stable_bind _ R_trans).
  - apply (stable_repeat_call _ R_refl R_trans); assumption.
  - intros _. apply stable_modify. exact Hcompleted.
Qed.

(** ** The split queue *)

Lemma same_queue_refl (l : Loop) : same_queue l l.
Proof. split; reflexivity. Qed.

Lemma same_queue_trans (l1 l2 l3 : Loop) :
  same_queue l1 l2 -> same_queue l2 l3 -> same_queue l1 l3.
Proof. intros [H1 H2] [H3 H4]. split; congruence. Qed.

Lemma same_queue__run_optimization tr batch_idx split_batch opt_idx optimizer :
  stable same_queue
    (_run_optimization tr batch_idx split_batch opt_idx optimizer).
Proof.
  apply (stable__run_optimization _ same_queue_refl same_queue_trans);
    try (intros; split; reflexivity);
    try (intros; stable_units same_queue_refl same_queue_trans
                   ltac:(split; reflexivity)).
  - intros _ l; split; split; reflexivity.
  - intros _ _ c Hc.
    apply (stable__optimizer_step _ same_queue_refl same_queue_trans);
      try (intros; split; reflexivity); exact Hc.
Qed.

Lemma same_queue_advance_optimizers tr batch_idx split_batch active :
  stable same_queue (advance_optimizers tr batch_idx split_batch active).
Proof.
  apply (stable_advance_optimizers _ same_queue_refl same_queue_trans).
  - intros i rc.
    apply (stable_append_batch_output _ same_queue_refl same_queue_trans).
    intros; split; reflexivity.
  - intros; split; reflexivity.
  - intros i o. apply same_queue__run_optimization.
Qed.

(** X1. [advance] takes exactly the head split off the queue and makes its
    index the current split index, whatever happens afterwards: this holds
    when the optimization of the split returns and when it raises, so a
    split is never processed twice and never left in the queue. *)
Theorem advance_pops_one_split :
  forall (tr : Trainer) (batch : Batch) (batch_idx : Z) (l : Loop)
         (split_idx0 : nat) (split_batch : Batch) (rest : list (nat * Batch)),
    _remaining_splits l = Some ((split_idx0, split_batch) :: rest) ->
    _remaining_splits (snd (advance tr batch batch_idx l)) = Some rest /\
    split_idx (snd (advance tr batch batch_idx l)) = Some split_idx0.
Proof.
  intros tr batch batch_idx l si sb rest Hq.
  set (l1 := add_event (EvLoggerOnTrainSplitStart batch_idx si sb)
               (set_split_idx (Some si)
                  (set_remaining_splits (Some rest) l))).
  assert (Hst : same_queue l1 (snd (advance tr batch batch_idx l))).
  { unfold advance, bind at 1, gets. rewrite Hq.
    unfold bind at 1 2 3, modify, emit, modify. fold l1.
    destruct (automatic_optimization tr).
    - pose proof (stable_bind _ same_queue_trans
                    (get_active_optimizers tr (Some batch_idx))
                    (advance_optimizers tr batch_idx sb)) as H.
      apply H.
      + apply (stable_get_active_optimizers _ same_queue_refl
                 same_queue_trans).
        intros; split; reflexivity.
      + intros active. apply same_queue_advance_optimizers.
    - pose proof (stable_bind _ same_queue_trans
                    (_run_optimization tr batch_idx sb None None)
                    (fun result =>
                       match result with
                       | Some r =>
                           append_batch_output 0 (result_collection r)
                       | None => ret tt
                       end)) as H.
      apply H.
      + apply same_queue__run_optimization.
      + intros [r|].
        * apply (stable_append_batch_output _ same_queue_refl
                   same_queue_trans).
          intros; split; reflexivity.
        * apply (stable_ret _ same_queue_refl). }
  destruct Hst as [H1 H2]. rewrite H1, H2. split; reflexivity.
Qed.

Lemma advance_pops_one_split_witness :
  _remaining_splits (snd (advance plain_trainer [1; 2] 0 restarted_loop))
    = Some [] /\
  split_idx (snd (advance plain_trainer [1; 2] 0 restarted_loop))
    = Some 0%nat.
Proof.
  apply (advance_pops_one_split plain_trainer [1; 2] 0 restarted_loop
           0%nat [1; 2] []).
  reflexivity.
Defined.

(** X2. Calling [advance] when no split is left raises [IndexError], and
    calling it before [on_run_start] or after [teardown], when there is
    no queue at all, raises [AttributeError]; in both cases the loop is
    left exactly as it was and no collaborator is called. *)
Theorem advance_without_split :
  forall (tr : Trainer) (batch : Batch) (batch_idx : Z) (l : Loop),
    (_remaining_splits l = Some [] ->
     advance tr batch batch_idx l = (Raise IndexError, l)) /\
    (_remaining_splits l = None ->
     advance tr batch batch_idx l = (Raise AttributeError, l)).
Proof.
  intros tr batch batch_idx l.
  split; intros H; unfold advance, bind, gets; rewrite H; reflexivity.
Qed.

Lemma advance_without_split_witness :
  advance plain_trainer [1; 2] 0 __init__ = (Raise AttributeError, __init__)
  /\
  advance plain_trainer [1; 2] 0 (set_remaining_splits (Some []) __init__) =
    (Raise IndexError, set_remaining_splits (Some []) __init__).
Proof.
  split.
  - apply (proj2 (advance_without_split plain_trainer [1; 2] 0 __init__)).
    reflexivity.
  - apply (proj1 (advance_without_split plain_trainer [1; 2] 0
                    (set_remaining_splits (Some []) __init__))).
    reflexivity.
Defined.

(** ** The progress counters *)

Lemma same_steps_refl (l : Loop) : same_steps l l.
Proof. split; reflexivity. Qed.

Lemma same_steps_trans (l1 l2 l3 : Loop) :
  same_steps l1 l2 -> same_steps l2 l3 -> same_steps l1 l3.
Proof. intros [H1 H2] [H3 H4]. split; congruence. Qed.

(** A closure built by [_make_closure] never touches the step counters. *)
Lemma made_closure_same_steps tr split_batch batch_idx opt_idx optimizer
    hiddens l c l' :
  _make_closure tr split_batch batch_idx opt_idx optimizer hiddens l =
    (Ret c, l') ->
  closure_stable same_steps c.
Proof.
  apply made_closure_stable;
    intros; stable_units same_steps_refl same_steps_trans
              ltac:(split; reflexivity).
Qed.

(** X3. Unless it refuses LBFGS under native AMP, [_optimizer_step] on a
    closure made by [_make_closure] counts the step as ready exactly once,
    however often the model hook evaluates the closure, and counts it as
    completed exactly once if it returns and not at all if an evaluation
    of the closure raises. *)
Theorem _optimizer_step_counts :
  forall (tr : Trainer) (split_batch : Batch) (batch_idx : Z)
         (opt_idx : option nat) (optimizer : option Optimizer)
         (hiddens : option Tensor) (l0 l1 : Loop) (c : Closure) (l : Loop),
    _make_closure tr split_batch batch_idx opt_idx optimizer hiddens l0 =
      (Ret c, l1) ->
    (amp_backend tr <> Some AMP_NATIVE \/
     forall o, optimizer = Some o -> is_LBFGS o = false) ->
    let r := _optimizer_step tr optimizer opt_idx batch_idx c l in
    step_ready (optim_progress (snd r)) = S (step_ready (optim_progress l)) /\
    (forall u, fst r = Ret u ->
       step_completed (optim_progress (snd r)) =
       S (step_completed (optim_progress l))) /\
    (forall e, fst r = Raise e ->
       step_completed (optim_progress (snd r)) =
       step_completed (optim_progress l)).
Proof.
  intros tr split_batch batch_idx opt_idx optimizer hiddens l0 l1 c l Hc Hok r.
  apply made_closure_same_steps in Hc.
  set (l2 := add_event
               (EvModelOptimizerStep (current_epoch tr) batch_idx optimizer
                  opt_idx (device_type_is_tpu tr && tpu_available tr)
                  match amp_backend tr with
                  | Some AMP_NATIVE => true
                  | _ => false
                  end
                  match optimizer with
                  | Some o => is_LBFGS o
                  | None => false
                  end)
               (set_optim_progress (incr_step_ready (optim_progress l)) l)).
  assert (E : r =
              match repeat_call
                      (optimizer_step_closure_calls tr batch_idx optimizer
                         opt_idx) c l2 with
              | (Ret _, l3) =>
                  (Ret tt,
                   set_optim_progress
                     (incr_step_completed (optim_progress l3)) l3)
              | (Raise e, l3) => (Raise e, l3)
              end).
  { subst r. unfold _optimizer_step.
    replace ((match amp_backend tr with
              | Some AMP_NATIVE => true
              | _ => false
              end)
             && match optimizer with Some o => is_LBFGS o | None => false end)
      with false; [reflexivity|].
    symmetry. destruct Hok as [Hamp|Hl].
    - destruct (amp_backend tr) as [[|]|]; try reflexivity. congruence.
    - destruct optimizer as [o|]; [|apply andb_false_r].
      rewrite (Hl o eq_refl). apply andb_false_r. }
  pose proof (stable_repeat_call _ same_steps_refl same_steps_trans
                ltac:(intros; split; reflexivity)
                (optimizer_step_closure_calls tr batch_idx optimizer opt_idx)
                c Hc l2) as [Hr Hcm].
  rewrite E. clear E.
  destruct (repeat_call _ c l2) as [[[]|e] l3]; subst l2; cbn in *;
    rewrite Hr, Hcm; repeat split; try reflexivity; discriminate.
Qed.

Lemma _optimizer_step_counts_witness :
  step_ready
    (optim_progress
       (snd (_optimizer_step sample_trainer (Some sgd) (Some 0%nat) 0
               (mkClosure
                  (_make_step_fn sample_trainer [1; 2] 0 (Some 0%nat) None)
                  (Some (backward_fn_of sample_trainer (Some sgd) (Some 0%nat)))
                  (Some (zero_grad_fn_of sample_trainer 0 (Some 0%nat)
                           (Some sgd))))
               running_loop)))
  = 4%nat.
Proof.
  apply (_optimizer_step_counts sample_trainer [1; 2] 0 (Some 0%nat)
           (Some sgd) None running_loop (set_closure_result None running_loop)
           _ running_loop).
  - reflexivity.
  - left. discriminate.
Defined.

Lemma progress_advances_refl (p : Progress) : progress_advances p p.
Proof. unfold progress_advances. lia. Qed.

Lemma progress_advances_trans (p1 p2 p3 : Progress) :
  progress_advances p1 p2 -> progress_advances p2 p3 ->
  progress_advances p1 p3.
Proof. unfold progress_advances. lia. Qed.

Lemma progress_advances_ordered (p p' : Progress) :
  progress_advances p p' -> counters_ordered p -> counters_ordered p'.
Proof. unfold progress_advances, counters_ordered. lia. Qed.

Lemma advances_refl (l : Loop) : advances l l.
Proof. apply progress_advances_refl. Qed.

Lemma advances_trans (l1 l2 l3 : Loop) :
  advances l1 l2 -> advances l2 l3 -> advances l1 l3.
Proof. apply progress_advances_trans. Qed.

Ltac advances_fin :=
  unfold advances, progress_advances; cbn; lia.

Lemma advances__optimizer_step tr optimizer opt_idx batch_idx c :
  closure_stable advances c ->
  stable advances (_optimizer_step tr optimizer opt_idx batch_idx c).
Proof.
  intros Hc. unfold _optimizer_step.
  match goal with |- stable _ (if ?b then _ else _) => destruct b end;
    [apply (stable_raise _ advances_refl)|].
  intros l. unfold bind at 1 2, modify_progress at 1, emit, modify.
  set (l2 := add_event _ (set_optim_progress _ l)).
  pose proof (stable_repeat_call _ advances_refl advances_trans
                ltac:(intros; advances_fin)
                (optimizer_step_closure_calls tr batch_idx optimizer opt_idx)
                c Hc l2) as H.
  unfold bind, modify_progress, modify.
  destruct (repeat_call _ c l2) as [[[]|e] l3]; subst l2;
    unfold advances, progress_advances in *; cbn in *; lia.
Qed.

Lemma advances__run_optimization tr batch_idx split_batch opt_idx optimizer :
  stable advances
    (_run_optimization tr batch_idx split_batch opt_idx optimizer).
Proof.
  apply (stable__run_optimization _ advances_refl advances_trans);
    try (intros; advances_fin);
    try (intros; stable_units advances_refl advances_trans
                   ltac:(advances_fin)).
  intros _ _ c Hc. now apply advances__optimizer_step.
Qed.

Lemma advances_advance tr batch batch_idx : stable advances (advance tr batch batch_idx).
Proof.
  unfold advance.
  apply (stable_bind _ advances_trans);
    [apply (stable_gets _ advances_refl) | intros rs].
  destruct rs as [[|[si sb] rest]|]; try apply (stable_raise _ advances_refl).
  apply (stable_bind _ advances_trans);
    [apply stable_modify; intros; advances_fin | intros _].
  apply (stable_bind _ advances_trans);
    [apply stable_modify; intros; advances_fin | intros _].
  apply (stable_bind _ advances_trans);
    [apply stable_modify; intros; advances_fin | intros _].
  destruct (automatic_optimization tr).
  - apply (stable_bind _ advances_trans).
    + apply (stable_get_active_optimizers _ advances_refl advances_trans).
      intros; advances_fin.
    + intros active.
      apply (stable_advance_optimizers _ advances_refl advances_trans).
      * intros i rc.
        apply (stable_append_batch_output _ advances_refl advances_trans).
        intros; advances_fin.
      * intros; advances_fin.
      * intros i o. apply advances__run_optimization.
  - apply (stable_bind _ advances_trans);
      [apply advances__run_optimization | intros [r|]].
    + apply (stable_append_batch_output _ advances_refl advances_trans).
      intros; advances_fin.
    + apply (stable_ret _ advances_refl).
Qed.

(** X4. Whatever [advance] does, and whether it returns or raises, no
    progress counter goes down and no stage gets ahead of the stage before
    it: a step is completed at most as often as it became ready, and
    zero-grad is started at most as often as it became ready and completed
    at most as often as it was started.  So counters that are in this
    order before [advance] are in this order after it. *)
Theorem advance_keeps_counters_ordered :
  forall (tr : Trainer) (batch : Batch) (batch_idx : Z) (l : Loop),
    progress_advances (optim_progress l)
      (optim_progress (snd (advance tr batch batch_idx l))) /\
    (counters_ordered (optim_progress l) ->
     counters_ordered (optim_progress (snd (advance tr batch batch_idx l)))).
Proof.
  intros tr batch batch_idx l.
  pose proof (advances_advance tr batch batch_idx l) as H.
  split; [exact H | now apply progress_advances_ordered].
Qed.

Lemma advance_keeps_counters_ordered_witness :
  counters_ordered (optim_progress running_loop) /\
  counters_ordered
    (optim_progress (snd (advance plain_trainer [1; 2] 0 running_loop))).
Proof.
  assert (H : counters_ordered (optim_progress running_loop))
    by (unfold counters_ordered; cbn; lia).
  split; [exact H|].
  apply (proj2 (advance_keeps_counters_ordered plain_trainer [1; 2] 0
                  running_loop)).
  exact H.
Defined.

(** ** The calls made to collaborators *)

Lemma appended_refl (Q : Event -> Prop) (l : Loop) : appended Q l l.
Proof.
  exists []. split; [now rewrite app_nil_r | constructor].
Qed.

Lemma appended_trans (Q : Event -> Prop) (l1 l2 l3 : Loop) :
  appended Q l1 l2 -> appended Q l2 l3 -> appended Q l1 l3.
Proof.
  intros (e1 & H1 & F1) (e2 & H2 & F2). exists (e1 ++ e2). split.
  - rewrite H2, H1. now rewrite app_assoc.
  - apply Forall_app. now split.
Qed.

Lemma appended_impl (Q Q' : Event -> Prop) (l l' : Loop) :
  (forall e, Q e -> Q' e) -> appended Q l l' -> appended Q' l l'.
Proof.
  intros H (evs & Ht & F). exists evs. split; [exact Ht|].
  eapply Forall_impl; [exact H | exact F].
Qed.

Lemma appended_event (Q : Event -> Prop) (e : Event) (l : Loop) :
  Q e -> appended Q l (add_event e l).
Proof.
  intros H. exists [e]. split; [reflexivity | now constructor].
Qed.

Lemma appended_same_trace (Q : Event -> Prop) (l l' : Loop) :
  trace l' = trace l -> appended Q l l'.
Proof.
  intros H. exists []. split; [now rewrite app_nil_r | constructor].
Qed.

(** One primitive update: either it leaves the trace alone, or it is the
    call of a collaborator, for which [tac] shows that it is allowed. *)
Ltac appended_fin tac :=
  first
    [ apply appended_same_trace; reflexivity
    | apply appended_event; tac ].

Ltac event_ok :=
  repeat match goal with Q := _ |- _ => subst Q end;
  cbn; intuition (auto; congruence).

(** The calls of one optimization, toggling apart. *)
Lemma optimization_inner_calls (tr : Trainer) (batch_idx : Z)
    (split_batch : Batch) (opt_idx : option nat)
    (optimizer : option Optimizer) (hiddens : option Tensor) :
  stable
    (appended
       (fun e =>
          optimization_event tr batch_idx split_batch opt_idx optimizer
            hiddens e /\
          not_toggling e))
    (optimization_inner tr batch_idx split_batch opt_idx optimizer hiddens).
Proof.
  set (Q := fun e => _ /\ not_toggling e).
  apply (stable_optimization_inner _ (appended_refl Q) (appended_trans Q));
    try (intros; appended_fin event_ok);
    try (intros; stable_units (appended_refl Q) (appended_trans Q)
                   ltac:(appended_fin event_ok)).
  - intros _ l. split; appended_fin event_ok.
  - intros _ _ c Hc.
    apply (stable__optimizer_step _ (appended_refl Q) (appended_trans Q));
      try (intros; appended_fin event_ok); exact Hc.
Qed.

Lemma _run_optimization_appended (tr : Trainer) (batch_idx : Z)
    (split_batch : Batch) (opt_idx : option nat)
    (optimizer : option Optimizer) (l : Loop) :
  appended
    (optimization_event tr batch_idx split_batch opt_idx optimizer
       (_hiddens l))
    l (snd (_run_optimization tr batch_idx split_batch opt_idx optimizer l)).
Proof.
  set (Q := optimization_event tr batch_idx split_batch opt_idx optimizer
              (_hiddens l)).
  rewrite _run_optimization_split.
  assert (Hrest : forall l1, _hiddens l1 = _hiddens l ->
            appended Q l1
              (snd ((hiddens <- gets _hiddens;;
                     result <- optimization_inner tr batch_idx split_batch
                                 opt_idx optimizer hiddens;;
                     _run_optimization_end tr opt_idx;;
                     ret result) l1))).
  { intros l1 Hh. unfold bind at 1, gets. rewrite Hh.
    apply (stable_bind _ (appended_trans Q)).
    - intros l2. eapply appended_impl; [|apply optimization_inner_calls].
      cbn. intros e [He _]. exact He.
    - intros result. unfold _run_optimization_end.
      apply (stable_bind _ (appended_trans Q));
        [|intros _; apply (stable_ret _ (appended_refl Q))].
      apply (stable_when _ (appended_refl Q)). apply stable_modify.
      intros l2. apply appended_event. subst Q. cbn. reflexivity. }
  unfold bind at 1, _run_optimization_start, when.
  destruct (automatic_optimization tr && (1 <? length (optimizers tr))%nat).
  - unfold emit, modify.
    eapply appended_trans; [|apply Hrest; reflexivity].
    apply appended_event. subst Q. cbn. split; reflexivity.
  - apply Hrest. reflexivity.
Qed.

Lemma optimization_event_opt_idx (tr : Trainer) (batch_idx : Z)
    (split_batch : Batch) (opt_idx : option nat)
    (optimizer : option Optimizer) (hiddens : option Tensor) (e : Event)
    (i : nat) :
  optimization_event tr batch_idx split_batch opt_idx optimizer hiddens e ->
  event_opt_idx e = Some i -> opt_idx = Some i.
Proof.
  destruct e; cbn; try discriminate; intuition (subst; auto; congruence).
Qed.


(** X6. Under automatic optimization with more than one optimizer,
    [_run_optimization] toggles the optimizer first and untoggles it last
    when it returns, and nothing in between toggles or untoggles; when
    an exception escapes, the optimizer has been toggled and is not
    untoggled. *)
Theorem _run_optimization_untoggles_on_return_only :
  forall (tr : Trainer) (batch_idx : Z) (split_batch : Batch)
         (opt_idx : option nat) (optimizer : option Optimizer) (l : Loop),
    automatic_optimization tr = true ->
    (1 < length (optimizers tr))%nat ->
    let r := _run_optimization tr batch_idx split_batch opt_idx optimizer l in
    exists mid,
      Forall not_toggling mid /\
      match fst r with
      | Ret _ =>
          trace (snd r) =
          trace l ++ [EvToggleOptimizer optimizer opt_idx] ++ mid
                  ++ [EvUntoggleOptimizer opt_idx]
      | Raise _ =>
          trace (snd r) =
          trace l ++ [EvToggleOptimizer optimizer opt_idx] ++ mid
      end.
Proof.
  intros tr batch_idx split_batch opt_idx optimizer l Hauto Hlen r.
  subst r. rewrite _run_optimization_split.
  unfold _run_optimization_start, _run_optimization_end, when.
  apply Nat.ltb_lt in Hlen. rewrite Hauto, Hlen. cbn [andb].
  pose proof (optimization_inner_calls tr batch_idx split_batch opt_idx
                optimizer (_hiddens l)
                (add_event (EvToggleOptimizer optimizer opt_idx) l))
    as (mid & Ht & F).
  exists mid. split.
  { eapply Forall_impl; [|exact F]. cbn. intros e [_ He]. exact He. }
  unfold bind, emit, modify, ret, gets. cbn [_hiddens add_event].
  destruct (optimization_inner tr batch_idx split_batch opt_idx optimizer
              (_hiddens l)
              (add_event (EvToggleOptimizer optimizer opt_idx) l))
    as [[result|e] l2]; cbn in *; rewrite Ht; now rewrite <- !app_assoc.
Qed.

Lemma _run_optimization_untoggles_on_return_only_witness :
  exists mid,
    Forall not_toggling mid /\
    trace (snd (_run_optimization two_lbfgs_amp_trainer 0 [1; 2] (Some 0%nat)
                  (Some lbfgs) running_loop))
    = [EvToggleOptimizer (Some lbfgs) (Some 0%nat)] ++ mid.
Proof.
  destruct (_run_optimization_untoggles_on_return_only two_lbfgs_amp_trainer
              0 [1; 2] (Some 0%nat) (Some lbfgs) running_loop eq_refl
              ltac:(cbn; lia))
    as (mid & F & H).
  exists mid. split; [exact F | exact H].
Defined.

(** ** Restarting, as the collaborators see it *)

Lemma at_least__run_optimization (tr : Trainer) (batch_idx : Z)
    (split_batch : Batch) (k i : nat) (o : Optimizer) :
  (k <= i)%nat ->
  stable (appended (at_least k))
    (_run_optimization tr batch_idx split_batch (Some i) (Some o)).
Proof.
  intros Hk l.
  eapply appended_impl; [|apply _run_optimization_appended].
  intros e He j Hj.
  pose proof (optimization_event_opt_idx _ _ _ _ _ _ _ _ He Hj) as H.
  inversion H. lia.
Qed.

Lemma run_optimizers_at_least (tr : Trainer) (batch_idx : Z)
    (split_batch : Batch) (k : nat) (active : list (nat * Optimizer)) :
  Forall (fun p => (k <= fst p)%nat) active ->
  stable (appended (at_least k))
    (run_optimizers tr batch_idx split_batch active).
Proof.
  set (Q := at_least k).
  induction active as [|[i o] rest IH]; intros Hall; cbn [run_optimizers].
  - apply (stable_ret _ (appended_refl Q)).
  - inversion Hall as [|? ? Hi Hrest]; subst. cbn in Hi.
    apply (stable_bind _ (appended_trans Q)).
    { apply stable_modify. intros l. now apply appended_same_trace. }
    intros _. apply (stable_bind _ (appended_trans Q)).
    { now apply at_least__run_optimization. }
    intros result. apply (stable_bind _ (appended_trans Q));
      [|intros _; now apply IH].
    destruct result; [|apply (stable_ret _ (appended_refl Q))].
    apply (stable_append_batch_output _ (appended_refl Q) (appended_trans Q)).
    intros v l. now apply appended_same_trace.
Qed.

Lemma not_skipped_at_least (k : nat) (active : list (nat * Optimizer)) :
  Forall (fun p => (k <= fst p)%nat) (not_skipped k active).
Proof.
  apply Forall_forall. intros p Hp. unfold not_skipped in Hp.
  apply filter_In in Hp. destruct Hp as [_ Hp]. now apply Nat.leb_le in Hp.
Qed.

(** X7. When the loop is restarting with recorded optimizer index [k],
    [advance] under automatic optimization makes no call for an optimizer
    of index below [k]: no toggling, no training step, no zero-grad, no
    backward and no optimizer step names such an index, whether [advance]
    returns or raises. *)
Theorem advance_restarting_calls :
  forall (tr : Trainer) (batch : Batch) (batch_idx : Z) (l : Loop) (k : nat),
    automatic_optimization tr = true ->
    restarting l = true ->
    optimizer_idx (optim_progress l) = k ->
    exists evs,
      trace (snd (advance tr batch batch_idx l)) = trace l ++ evs /\
      forall e i, In e evs -> event_opt_idx e = Some i -> (k <= i)%nat.
Proof.
  intros tr batch batch_idx l k Hauto Hr Hk.
  set (Q := at_least k).
  assert (H : appended Q l (snd (advance tr batch batch_idx l))).
  { unfold advance. rewrite Hauto. unfold bind at 1, gets.
    destruct (_remaining_splits l) as [[|[si sb] rest]|];
      try apply appended_refl.
    unfold bind at 1 2 3, modify, emit, modify.
    set (l3 := add_event _ (set_split_idx _ (set_remaining_splits _ l))).
    apply (appended_trans Q l l3).
    { exists [EvLoggerOnTrainSplitStart batch_idx si sb].
      split; [reflexivity|]. repeat constructor. intros i Hi. discriminate. }
    unfold bind.
    pose proof (stable_get_active_optimizers _ (appended_refl Q)
                  (appended_trans Q) tr
                  ltac:(intros; now apply appended_same_trace)
                  (Some batch_idx) l3) as H4.
    pose proof (keeps_get_active_optimizers tr (Some batch_idx) l3) as K4.
    destruct (get_active_optimizers tr (Some batch_idx) l3)
      as [[active|e] l4] eqn:E4; cbn in H4, K4; [|exact H4].
    apply (appended_trans Q l3 l4); [exact H4|].
    unfold resume_state in K4. subst l3. cbn in K4.
    inversion K4 as [[Hr4 Hi4]].
    rewrite advance_optimizers_restarting.
    - apply run_optimizers_at_least. rewrite Hi4, Hk.
      apply not_skipped_at_least.
    - congruence.
    - eapply get_active_optimizers_sorted. exact E4. }
  destruct H as (evs & Ht & F). exists evs. split; [exact Ht|].
  intros e i Hin Hi. rewrite Forall_forall in F. exact (F e Hin i Hi).
Qed.

Lemma advance_restarting_calls_witness :
  exists evs,
    trace (snd (advance plain_trainer [1; 2] 0 restarted_loop)) = evs /\
    forall e i, In e evs -> event_opt_idx e = Some i -> (1 <= i)%nat.
Proof.
  destruct (advance_restarting_calls plain_trainer [1; 2] 0 restarted_loop 1
              eq_refl eq_refl eq_refl) as (evs & Ht & H).
  exists evs. split; [exact Ht | exact H].
Defined.

(** ** Manual optimization and accumulation *)

Lemma same_progress_refl (l : Loop) : same_progress l l.
Proof. reflexivity. Qed.

Lemma same_progress_trans (l1 l2 l3 : Loop) :
  same_progress l1 l2 -> same_progress l2 l3 -> same_progress l1 l3.
Proof. unfold same_progress. congruence. Qed.

Lemma closure_call_forward (s : M (option ClosureResult)) (l : Loop) :
  closure_call (mkClosure s None None) l =
  match s l with
  | (Ret so, l') =>
      (Ret (match so with Some r => loss r | None => None end),
       set_closure_result so l')
  | (Raise e, l') => (Raise e, l')
  end.
Proof.
  unfold closure_call, bind, modify, ret. cbn.
  destruct (s l) as [[[r|]|e] l']; reflexivity.
Qed.

Lemma _training_step_manual_result (tr : Trainer) (split_batch : Batch)
    (batch_idx : Z) (opt_idx : option nat) (hiddens : option Tensor)
    (l : Loop) (so : option ClosureResult) (l' : Loop) :
  automatic_optimization tr = false ->
  _training_step tr split_batch batch_idx opt_idx hiddens l = (Ret so, l') ->
  forall res, so = Some res -> closure_loss res = None /\ loss res = None.
Proof.
  intros Hauto. rewrite _training_step_eq. cbv zeta. rewrite Hauto.
  destruct (check_training_step_output tr false _); [discriminate|].
  destruct (fst (process_training_step_output tr _)) as [rc|].
  - intros [= <- _] res [= <-]. split; reflexivity.
  - intros [= <- _] res [=].
Qed.

Lemma bind_ret_inv {A B} (m : M A) (k : A -> M B) (l : Loop) (b : B)
    (l'' : Loop) :
  bind m k l = (Ret b, l'') ->
  exists a l', m l = (Ret a, l') /\ k a l' = (Ret b, l'').
Proof.
  unfold bind. destruct (m l) as [[a|e] l']; [|discriminate].
  intros H. now exists a, l'.
Qed.

Lemma _make_closure_manual (tr : Trainer) (split_batch : Batch)
    (batch_idx : Z) (opt_idx : option nat) (optimizer : option Optimizer)
    (hiddens : option Tensor) (l : Loop) :
  automatic_optimization tr = false ->
  _make_closure tr split_batch batch_idx opt_idx optimizer hiddens l =
  if accumulate_grad_batches tr =? 0 then (Raise ZeroDivisionError, l)
  else
    (Ret (mkClosure (_make_step_fn tr split_batch batch_idx opt_idx hiddens)
            None None),
     set_closure_result None l).
Proof.
  intros Hauto. unfold _make_closure, bind. rewrite _make_backward_fn_eq.
  unfold _make_zero_grad_fn, py_mod, bind, gets, modify, ret, raise.
  rewrite Hauto, andb_false_r.
  destruct (accumulate_grad_batches tr =? 0); [reflexivity|].
  cbv beta. rewrite andb_false_r. reflexivity.
Qed.

(** Under manual optimization the closure only runs the step, and what
    it caches has neither a closure loss nor a display loss. *)
Lemma closure_call_manual (tr : Trainer) (split_batch : Batch)
    (batch_idx : Z) (opt_idx : option nat) (hiddens : option Tensor)
    (l : Loop) (x : option Tensor) (l' : Loop) (res : ClosureResult) :
  automatic_optimization tr = false ->
  closure_call
    (mkClosure (_make_step_fn tr split_batch batch_idx opt_idx hiddens)
       None None) l = (Ret x, l') ->
  closure_result l' = Some res ->
  closure_loss res = None /\ loss res = None.
Proof.
  intros Hauto. rewrite closure_call_forward. unfold _make_step_fn.
  destruct (_training_step tr split_batch batch_idx opt_idx hiddens l)
    as [[so|e] l1] eqn:Es; [|discriminate].
  intros [= _ <-]. cbn. intros ->.
  eapply _training_step_manual_result; [exact Hauto | exact Es | reflexivity].
Qed.

(** What [_run_optimization] returns under manual optimization. *)
Lemma _run_optimization_manual_result (tr : Trainer) (batch_idx : Z)
    (split_batch : Batch) (opt_idx : option nat)
    (optimizer : option Optimizer) (l : Loop) (res : ClosureResult) :
  automatic_optimization tr = false ->
  fst (_run_optimization tr batch_idx split_batch opt_idx optimizer l) =
    Ret (Some res) ->
  closure_loss res = None /\ loss res = None.
Proof.
  intros Hauto.
  destruct (_run_optimization tr batch_idx split_batch opt_idx optimizer l)
    as [out l'] eqn:E.
  cbn. intros ->. rewrite _run_optimization_split in E.
  apply bind_ret_inv in E as ([] & l1 & _ & E).
  apply bind_ret_inv in E as (hiddens & l2 & _ & E).
  apply bind_ret_inv in E as (result & l3 & E3 & E).
  apply bind_ret_inv in E as ([] & l4 & _ & E).
  inversion E; subst result l4. clear E.
  unfold optimization_inner in E3.
  apply bind_ret_inv in E3 as (c & l5 & Ec & E3).
  rewrite _make_closure_manual in Ec by exact Hauto.
  destruct (accumulate_grad_batches tr =? 0); [discriminate|].
  inversion Ec; subst c l5. clear Ec.
  apply bind_ret_inv in E3 as ([] & l6 & Eb & E3).
  apply bind_ret_inv in E3 as (result & l7 & Eg & E3).
  unfold get_result, gets in Eg. inversion Eg; subst result l7. clear Eg.
  apply bind_ret_inv in E3 as ([] & l8 & _ & E3).
  inversion E3 as [[Hres Hl]]. clear E3.
  rewrite Hauto in Eb.
  destruct (should_accumulate tr).
  - unfold with_scope in Eb.
    destruct ((closure_call _;; ret tt) (add_event EvBlockSyncEnter _))
      as [r l9] eqn:Ew.
    inversion Eb; subst r l6. clear Eb.
    apply bind_ret_inv in Ew as (x & l10 & Ecall & Ew).
    inversion Ew; subst l10.
    eapply closure_call_manual; [exact Hauto | exact Ecall | exact Hres].
  - apply bind_ret_inv in Eb as (x & l10 & Ecall & Eb).
    inversion Eb; subst l10.
    eapply closure_call_manual; [exact Hauto | exact Ecall | exact Hres].
Qed.

(** X8. Under manual optimization [_run_optimization] only runs the
    forward step: its calls are the training step with its two hooks,
    inside the sync-blocking scope when accumulating; it never toggles an
    optimizer, zeroes gradients, runs backward, clips or steps; the
    progress record is left as it was; and a result it returns has neither
    a closure loss nor a display loss. *)
Theorem _run_optimization_manual :
  forall (tr : Trainer) (batch_idx : Z) (split_batch : Batch)
         (opt_idx : option nat) (optimizer : option Optimizer) (l : Loop),
    automatic_optimization tr = false ->
    let r := _run_optimization tr batch_idx split_batch opt_idx optimizer l in
    (exists evs,
       trace (snd r) = trace l ++ evs /\ Forall forward_only_event evs) /\
    optim_progress (snd r) = optim_progress l /\
    (forall res, fst r = Ret (Some res) ->
                 closure_loss res = None /\ loss res = None).
Proof.
  intros tr batch_idx split_batch opt_idx optimizer l Hauto r. subst r.
  split; [|split].
  - set (Q := forward_only_event).
    apply (stable__run_optimization _ (appended_refl Q) (appended_trans Q));
      try (intros; appended_fin event_ok);
      try (intros; stable_units (appended_refl Q) (appended_trans Q)
                     ltac:(appended_fin event_ok));
      try congruence.
    intros _ l0. split; appended_fin event_ok.
  - apply (stable__run_optimization _ same_progress_refl same_progress_trans);
      try (intros; reflexivity);
      try (intros; stable_units same_progress_refl same_progress_trans
                     ltac:(reflexivity));
      try congruence.
    intros _ l0. split; reflexivity.
  - intros res. now apply _run_optimization_manual_result.
Qed.

Lemma _run_optimization_manual_witness :
  (exists evs,
     trace (snd (_run_optimization manual_trainer 0 [1; 2] None None
                   running_loop)) = [] ++ evs /\
     Forall forward_only_event evs) /\
  optim_progress (snd (_run_optimization manual_trainer 0 [1; 2] None None
                         running_loop))
  = optim_progress running_loop.
Proof.
  destruct (_run_optimization_manual manual_trainer 0 [1; 2] None None
              running_loop eq_refl) as (Hev & Hp & _).
  split; [exact Hev | exact Hp].
Defined.

(** X9. Inside an accumulation window [_run_optimization] takes no
    optimizer step: the model's [optimizer_step] hook is not called and
    the step counters are left as they were, under automatic and under
    manual optimization alike. *)
Theorem _run_optimization_accumulating :
  forall (tr : Trainer) (batch_idx : Z) (split_batch : Batch)
         (opt_idx : option nat) (optimizer : option Optimizer) (l : Loop),
    should_accumulate tr = true ->
    let r := _run_optimization tr batch_idx split_batch opt_idx optimizer l in
    (exists evs,
       trace (snd r) = trace l ++ evs /\ Forall not_optimizer_step evs) /\
    step_ready (optim_progress (snd r)) = step_ready (optim_progress l) /\
    step_completed (optim_progress (snd r))
    = step_completed (optim_progress l).
Proof.
  intros tr batch_idx split_batch opt_idx optimizer l Hacc r. subst r.
  split.
  - set (Q := not_optimizer_step).
    apply (stable__run_optimization _ (appended_refl Q) (appended_trans Q));
      try (intros; appended_fin event_ok);
      try (intros; stable_units (appended_refl Q) (appended_trans Q)
                     ltac:(appended_fin event_ok));
      try congruence.
    intros _ l0. split; appended_fin event_ok.
  - apply (stable__run_optimization _ same_steps_refl same_steps_trans);
      try (intros; split; reflexivity);
      try (intros; stable_units same_steps_refl same_steps_trans
                     ltac:(split; reflexivity));
      try congruence.
    intros _ l0. split; split; reflexivity.
Qed.

Lemma _run_optimization_accumulating_witness :
  (exists evs,
     trace (snd (_run_optimization accumulating_trainer 1 [1; 2] (Some 0%nat)
                   (Some sgd) running_loop)) = [] ++ evs /\
     Forall not_optimizer_step evs) /\
  step_ready
    (optim_progress
       (snd (_run_optimization accumulating_trainer 1 [1; 2] (Some 0%nat)
               (Some sgd) running_loop))) = 3%nat /\
  step_completed
    (optim_progress
       (snd (_run_optimization accumulating_trainer 1 [1; 2] (Some 0%nat)
               (Some sgd) running_loop))) = 3%nat.
Proof.
  apply (_run_optimization_accumulating accumulating_trainer 1 [1; 2]
           (Some 0%nat) (Some sgd) running_loop eq_refl).
Defined.

(** ** Edges of the single methods *)

(** X10. When the [on_batch_start] hook answers -1, [run] returns signal
    -1 without a [training_step_output] entry after calling only the
    logger and that hook; when it is the [on_train_batch_start] hook that
    answers -1, [run] has called that hook too and returns the same.  In
    both cases the batch is not counted as started, the per-batch state is
    not reset and nothing but the trace changes. *)
Theorem run_abort :
  forall (tr : Trainer) (batch : Batch) (batch_idx : Z) (l : Loop),
    (on_batch_start_response tr = Some (-1) ->
     run tr (Some batch) batch_idx l =
       (Ret (mkRunOutput (-1) None),
        add_events [EvLoggerOnBatchStart; EvCallHook "on_batch_start"] l)) /\
    (on_batch_start_response tr <> Some (-1) ->
     on_train_batch_start_response tr batch batch_idx = Some (-1) ->
     run tr (Some batch) batch_idx l =
       (Ret (mkRunOutput (-1) None),
        add_events [EvLoggerOnBatchStart; EvCallHook "on_batch_start";
                    EvCallHook "on_train_batch_start"] l)).
Proof.
  intros tr batch batch_idx l. split.
  - intros H. unfold run, bind, emit, modify, ret. rewrite H. reflexivity.
  - intros H1 H2. unfold run, bind, emit, modify, ret. rewrite H2.
    destruct (on_batch_start_response tr) as [z|]; cbn; [|reflexivity].
    destruct (z =? -1) eqn:Hz; [|reflexivity].
    apply Z.eqb_eq in Hz. congruence.
Qed.

Lemma run_abort_witness :
  run aborting_trainer (Some [1; 2]) 0 loop_with_hiddens =
    (Ret (mkRunOutput (-1) None),
     add_events [EvLoggerOnBatchStart; EvCallHook "on_batch_start"]
       loop_with_hiddens).
Proof.
  apply (proj1 (run_abort aborting_trainer [1; 2] 0 loop_with_hiddens)).
  reflexivity.
Defined.

Lemma np_cumsum_last (f0 : Z) (fr : list Z) :
  exists period, py_last (np_cumsum (f0 :: fr)) = ret period.
Proof.
  unfold py_last.
  destruct (rev (np_cumsum (f0 :: fr))) as [|x r] eqn:E.
  - apply (f_equal (@length Z)) in E.
    rewrite length_rev in E. unfold np_cumsum in E.
    rewrite cumsum_from_length in E. discriminate.
  - now exists x.
Qed.

(** X11. With optimizer frequencies configured, asking for the active
    optimizers without a batch index, which is what the default argument
    of [get_active_optimizers] and of [num_active_optimizers] does, raises
    [TypeError]; the cumulative sums have been cached by then. *)
Theorem get_active_optimizers_needs_batch_idx :
  forall (tr : Trainer) (l : Loop),
    optimizer_frequencies tr <> [] ->
    cache_coherent tr l ->
    get_active_optimizers tr None l =
      (Raise TypeError,
       set_optimizer_freq_cumsum
         (Some (np_cumsum (optimizer_frequencies tr))) l) /\
    num_active_optimizers tr None l =
      (Raise TypeError,
       set_optimizer_freq_cumsum
         (Some (np_cumsum (optimizer_frequencies tr))) l).
Proof.
  intros tr l Hne Hc.
  assert (H : get_active_optimizers tr None l =
              (Raise TypeError,
               set_optimizer_freq_cumsum
                 (Some (np_cumsum (optimizer_frequencies tr))) l)).
  { unfold get_active_optimizers.
    destruct (optimizer_frequencies tr) as [|f0 fr] eqn:Ef; [congruence|].
    unfold bind at 1.
    pose proof (optimizer_freq_cumsum_coherent tr l Hc) as Hcs.
    rewrite Ef in Hcs. rewrite Hcs.
    destruct (np_cumsum_last f0 fr) as [period Hp].
    unfold bind. rewrite Hp. reflexivity. }
  split; [exact H|].
  unfold num_active_optimizers, bind. rewrite H. reflexivity.
Qed.

Lemma get_active_optimizers_needs_batch_idx_witness :
  num_active_optimizers sample_trainer None __init__ =
    (Raise TypeError, set_optimizer_freq_cumsum (Some [2; 3]) __init__).
Proof.
  apply (proj2 (get_active_optimizers_needs_batch_idx sample_trainer __init__
                  ltac:(discriminate) (or_introl eq_refl))).
Defined.

(** X12. Once the cumulative sums of the frequencies have been computed
    they are never computed again: later reads return the cached sums
    and leave the loop alone, whatever the trainer's frequencies have
    become in the meantime. *)
Theorem optimizer_freq_cumsum_is_cached :
  forall (tr tr' : Trainer) (l : Loop),
    _optimizer_freq_cumsum l = None ->
    let l1 := snd (optimizer_freq_cumsum tr l) in
    fst (optimizer_freq_cumsum tr l) =
      Ret (np_cumsum (optimizer_frequencies tr)) /\
    optimizer_freq_cumsum tr' l1 =
      (Ret (np_cumsum (optimizer_frequencies tr)), l1).
Proof.
  intros tr tr' l H l1.
  assert (E : optimizer_freq_cumsum tr l =
              (Ret (np_cumsum (optimizer_frequencies tr)),
               set_optimizer_freq_cumsum
                 (Some (np_cumsum (optimizer_frequencies tr))) l)).
  { unfold optimizer_freq_cumsum, bind, gets. rewrite H. reflexivity. }
  subst l1. rewrite E. split; reflexivity.
Qed.

Lemma optimizer_freq_cumsum_is_cached_witness :
  optimizer_freq_cumsum plain_trainer
    (snd (optimizer_freq_cumsum sample_trainer __init__)) =
  (Ret [2; 3], snd (optimizer_freq_cumsum sample_trainer __init__)).
Proof.
  apply (proj2 (optimizer_freq_cumsum_is_cached sample_trainer plain_trainer
                  __init__ eq_refl)).
Defined.

(** X13. [_make_closure] gives the closure a backward function exactly
    when automatic optimization is on and backward is not flagged to be
    skipped, whatever the batch index; a closure that zeroes gradients
    always also runs backward.  With [accumulate_grad_batches = 0] no
    closure is built: the call raises [ZeroDivisionError], under manual
    optimization too, and leaves the loop as it was. *)
Theorem _make_closure_backward_fn :
  forall (tr : Trainer) (l : Loop) (split_batch : Batch) (b : Z)
         (opt_idx : option nat) (optimizer : option Optimizer)
         (hiddens : option Tensor),
    (accumulate_grad_batches tr <> 0 ->
     exists c,
       _make_closure tr split_batch b opt_idx optimizer hiddens l =
         (Ret c, set_closure_result None l) /\
       (backward_fn c <> None <->
        automatic_optimization tr = true /\ _skip_backward l = false) /\
       (zero_grad_fn c <> None -> backward_fn c <> None) /\
       step_fn c = _training_step tr split_batch b opt_idx hiddens) /\
    (accumulate_grad_batches tr = 0 ->
     _make_closure tr split_batch b opt_idx optimizer hiddens l =
       (Raise ZeroDivisionError, l)).
Proof.
  intros tr l split_batch b opt_idx optimizer hiddens. split.
  - intros Hagb. eexists. split.
    + unfold _make_closure. unfold bind at 1. rewrite _make_backward_fn_eq.
      unfold bind at 1. rewrite _make_zero_grad_fn_eq by exact Hagb.
      reflexivity.
    + cbn [backward_fn zero_grad_fn step_fn].
      destruct (_skip_backward l), (automatic_optimization tr);
        destruct (b mod accumulate_grad_batches tr =? 0); cbn;
        repeat split; intros; try congruence; try tauto;
        intuition congruence.
  - intros Hagb. unfold _make_closure. unfold bind at 1.
    rewrite _make_backward_fn_eq. unfold bind at 1.
    unfold _make_zero_grad_fn, py_mod. rewrite Hagb. reflexivity.
Qed.

Lemma _make_closure_backward_fn_witness :
  exists c,
    _make_closure manual_trainer [1; 2] 0 None None None __init__ =
      (Ret c, set_closure_result None __init__) /\
    backward_fn c = None.
Proof.
  destruct (proj1 (_make_closure_backward_fn manual_trainer __init__ [1; 2] 0
                     None None None) ltac:(discriminate))
    as (c & Hc & Hiff & _).
  exists c. split; [exact Hc|].
  destruct (backward_fn c) as [bw|] eqn:E; [|reflexivity].
  exfalso. assert (H : Some bw <> None) by discriminate.
  apply Hiff in H. destruct H as [H _]. discriminate.
Defined.

(** X14. Inside an accumulation window [backward] only calls the
    accelerator's backward and returns the loss, whatever the logging
    interval.  Outside one, a logging interval of 0 makes it raise
    [ZeroDivisionError] once the accelerator's backward has run, also when
    norm tracking is off, and the gradients are not clipped. *)
Theorem backward_edges :
  forall (tr : Trainer) (l : Loop) (loss : Tensor)
         (optimizer : option Optimizer) (opt_idx : option nat),
    (should_accumulate tr = true ->
     backward tr loss optimizer opt_idx l =
       (Ret loss, add_event (EvAcceleratorBackward loss optimizer opt_idx) l))
    /\
    (should_accumulate tr = false ->
     log_every_n_steps tr = 0 ->
     backward tr loss optimizer opt_idx l =
       (Raise ZeroDivisionError,
        add_event (EvAcceleratorBackward loss optimizer opt_idx) l)).
Proof.
  intros tr l loss optimizer opt_idx. split.
  - intros H. unfold backward. rewrite H. reflexivity.
  - intros H Hn. unfold backward, _track_and_norm_grad, py_mod.
    rewrite H, Hn. reflexivity.
Qed.

Lemma backward_edges_witness :
  backward never_logging_trainer (mkTensor (3 # 1) true) (Some sgd)
    (Some 0%nat) __init__ =
  (Raise ZeroDivisionError,
   add_event
     (EvAcceleratorBackward (mkTensor (3 # 1) true) (Some sgd) (Some 0%nat))
     __init__).
Proof.
  apply (proj2 (backward_edges never_logging_trainer __init__
                  (mkTensor (3 # 1) true) (Some sgd) (Some 0%nat)));
    reflexivity.
Defined.

(** X15. On a loop whose accumulation buffer has not been set, as
    [__init__] leaves it, [_update_running_loss] raises [AttributeError]
    under automatic and under manual optimization, and changes nothing. *)
Theorem _update_running_loss_without_buffer :
  forall (tr : Trainer) (l : Loop) (current_loss : option Tensor),
    accumulated_loss l = None ->
    _update_running_loss tr current_loss l = (Raise AttributeError, l).
Proof.
  intros tr l current_loss H.
  assert (E : the_accumulated_loss l = (Raise AttributeError, l)).
  { unfold the_accumulated_loss, bind, gets. rewrite H. reflexivity. }
  unfold _update_running_loss.
  destruct (automatic_optimization tr).
  - unfold bind at 1 2. rewrite E. reflexivity.
  - unfold bind at 1, ret at 1. unfold bind at 1. rewrite E. reflexivity.
Qed.

Lemma _update_running_loss_without_buffer_witness :
  _update_running_loss sample_trainer (Some (mkTensor (3 # 1) false)) __init__
  = (Raise AttributeError, __init__).
Proof.
  apply (_update_running_loss_without_buffer sample_trainer __init__).
  reflexivity.
Defined.

(** X16. When the validation rejects the step output, [_training_step]
    raises the validation's exception after the accelerator's training
    step and the two hooks have been called, and the stored hidden state
    is left as it was.  When, under automatic optimization, the result
    collection holds no loss, it raises [TypeError], and by then the
    hidden state has been overwritten. *)
Theorem _training_step_failures :
  forall (tr : Trainer) (l : Loop) (split_batch : Batch) (batch_idx : Z)
         (opt_idx : option nat) (hiddens : option Tensor),
    let out := step_output tr split_batch batch_idx opt_idx hiddens in
    let l1 :=
      add_events (step_events split_batch batch_idx opt_idx hiddens) l in
    (forall e,
       check_training_step_output tr (automatic_optimization tr) out = Some e
       ->
       _training_step tr split_batch batch_idx opt_idx hiddens l
       = (Raise e, l1) /\
       _hiddens l1 = _hiddens l) /\
    (forall rc,
       check_training_step_output tr (automatic_optimization tr) out = None ->
       automatic_optimization tr = true ->
       fst (process_training_step_output tr out) = Some rc ->
       minimize rc = None ->
       _training_step tr split_batch batch_idx opt_idx hiddens l
       = (Raise TypeError,
          set_hiddens (snd (process_training_step_output tr out)) l1)).
Proof.
  intros tr l split_batch batch_idx opt_idx hiddens out l1. split.
  - intros e He. rewrite _training_step_eq. cbv zeta. fold out.
    rewrite He. split; reflexivity.
  - intros rc Hc Hauto Hrc Hmin. rewrite _training_step_eq. cbv zeta.
    fold out. rewrite Hc, Hrc, Hauto, Hmin. reflexivity.
Qed.

Lemma _training_step_failures_witness :
  fst (_training_step invalid_output_trainer [1; 2] 0 (Some 0%nat) None
         loop_with_hiddens)
  = Raise (MisconfigurationException "invalid step output") /\
  _hiddens
    (snd (_training_step invalid_output_trainer [1; 2] 0 (Some 0%nat) None
            loop_with_hiddens))
  = _hiddens loop_with_hiddens.
Proof.
  destruct (proj1 (_training_step_failures invalid_output_trainer
                     loop_with_hiddens [1; 2] 0 (Some 0%nat) None)
              (MisconfigurationException "invalid step output") eq_refl)
    as [Hrun Hh].
  rewrite Hrun. split; [reflexivity | exact Hh].
Defined.

(** ** The split queue from start to end *)

(** X17. [on_run_start] fills the queue with the splits numbered from 0 in
    their order.  With [truncated_bptt_steps = 0] the batch is the only
    split and the model is not asked to split it, so [done] is false
    afterwards; otherwise the splits are the model's, and [done] is true
    right away exactly when the model returned none.  Before
    [on_run_start] and after [teardown] there is no queue and [done]
    raises [TypeError]. *)
Theorem split_queue_lifecycle :
  forall (tr : Trainer) (batch : Batch) (batch_idx : Z) (l : Loop),
    let l1 := snd (on_run_start tr batch batch_idx l) in
    (truncated_bptt_steps tr = 0 ->
     on_run_start tr batch batch_idx l =
       (Ret tt, set_remaining_splits (Some [(0%nat, batch)]) l) /\
     done l1 = (Ret false, l1)) /\
    (truncated_bptt_steps tr <> 0 ->
     let splits := tbptt_split_batch tr batch (truncated_bptt_steps tr) in
     on_run_start tr batch batch_idx l =
       (Ret tt,
        set_remaining_splits (Some (enumerate splits))
          (add_event (EvTbpttSplitBatch batch (truncated_bptt_steps tr)) l))
     /\
     map fst (enumerate splits) = seq 0 (length splits) /\
     map snd (enumerate splits) = splits /\
     done l1 = (Ret (length splits =? 0)%nat, l1)) /\
    (_remaining_splits l = None -> done l = (Raise TypeError, l)) /\
    done (snd (teardown l1)) = (Raise TypeError, snd (teardown l1)).
Proof.
  intros tr batch batch_idx l l1. subst l1.
  unfold on_run_start, _tbptt_split_batch.
  split; [|split; [|split]].
  - intros H. rewrite H. cbn. split; reflexivity.
  - intros H. apply Z.eqb_neq in H. rewrite H. cbn.
    repeat split.
    + apply enumerate_fst.
    + apply enumerate_snd.
    + unfold done, bind, gets. cbn. now rewrite enumerate_length.
  - intros H. unfold done, bind, gets. rewrite H. reflexivity.
  - reflexivity.
Qed.

Lemma split_queue_lifecycle_witness :
  on_run_start plain_trainer [1; 2] 0 __init__ =
    (Ret tt, set_remaining_splits (Some [(0%nat, [1; 2])]) __init__) /\
  done (snd (on_run_start plain_trainer [1; 2] 0 __init__)) =
    (Ret false, snd (on_run_start plain_trainer [1; 2] 0 __init__)).
Proof.
  apply (proj1 (split_queue_lifecycle plain_trainer [1; 2] 0 __init__)).
  reflexivity.
Defined.

(** ** Not restarting *)

Lemma advance_optimizers_not_restarting (tr : Trainer) (batch_idx : Z)
    (split_batch : Batch) :
  forall (active : list (nat * Optimizer)) (l : Loop),
    restarting l = false ->
    advance_optimizers tr batch_idx split_batch active l =
    run_optimizers tr batch_idx split_batch active l.
Proof.
  induction active as [|[i o] rest IH]; intros l Hr; [reflexivity|].
  cbn [advance_optimizers run_optimizers].
  unfold bind at 1 2. unfold gets. rewrite Hr. cbn [andb].
  apply bind_cong. intros [] l1 E1.
  assert (H1 : restarting l1 = false).
  { unfold modify_progress, modify in E1. inversion E1; subst. exact Hr. }
  apply bind_cong. intros result l2 E2.
  apply (keeps_result _ _ _ _ (keeps__run_optimization tr _ _ _ _)) in E2.
  apply bind_cong. intros [] l3 E3.
  apply IH.
  assert (H3 : resume_state l3 = resume_state l2).
  { destruct result as [r|].
    - eapply keeps_result; [apply keeps_append_batch_output | exact E3].
    - inversion E3; reflexivity. }
  unfold resume_state in *. congruence.
Qed.

(** X18. On a loop that is not restarting, [advance] under automatic
    optimization skips no active optimizer, whatever optimizer index is
    recorded as progress: it runs the plain optimizer loop over all of
    them. *)
Theorem advance_not_restarting :
  forall (tr : Trainer) (batch : Batch) (batch_idx : Z) (l : Loop),
    automatic_optimization tr = true ->
    restarting l = false ->
    advance tr batch batch_idx l = advance_resuming tr 0 batch batch_idx l /\
    (forall active, not_skipped 0 active = active).
Proof.
  intros tr batch batch_idx l Hauto Hr.
  assert (Hall : forall active, not_skipped 0 active = active).
  { intros active. apply not_skipped_all.
    apply Forall_forall. intros; lia. }
  split; [|exact Hall].
  unfold advance, advance_resuming. rewrite Hauto.
  apply bind_cong. intros rs l0 E0.
  unfold gets in E0. inversion E0; subst l0 rs. clear E0.
  destruct (_remaining_splits l) as [[|[split_idx split_batch] rest]|];
    try reflexivity.
  apply bind_cong. intros [] l1 E1.
  apply bind_cong. intros [] l2 E2.
  apply bind_cong. intros [] l3 E3.
  apply bind_cong. intros active l4 E4.
  rewrite Hall. apply advance_optimizers_not_restarting.
  unfold modify in E1, E2. unfold emit, modify in E3.
  inversion E1; inversion E2; inversion E3; subst.
  apply (keeps_result _ _ _ _ (keeps_get_active_optimizers tr _)) in E4.
  unfold resume_state in E4. cbn in E4. congruence.
Qed.

Lemma advance_not_restarting_witness :
  advance plain_trainer [1; 2] 0 running_loop =
    advance_resuming plain_trainer 0 [1; 2] 0 running_loop.
Proof.
  apply (proj1 (advance_not_restarting plain_trainer [1; 2] 0 running_loop
                  eq_refl eq_refl)).
Defined.

(** ** The rotation of the optimizers *)

Lemma get_active_optimizers_rotation (tr : Trainer) (l : Loop) (b : Z) :
  optimizer_frequencies tr <> [] ->
  Forall (fun f => 0 < f) (optimizer_frequencies tr) ->
  freq_sum (optimizer_frequencies tr) <= max_int64 ->
  (length (optimizer_frequencies tr) <= length (optimizers tr))%nat ->
  cache_coherent tr l ->
  exists i optimizer,
    get_active_optimizers tr (Some b) l =
      (Ret [(i, optimizer)],
       set_optimizer_freq_cumsum
         (Some (np_cumsum (optimizer_frequencies tr))) l) /\
    (i < length (optimizer_frequencies tr))%nat /\
    cumsum_at (optimizer_frequencies tr) i >
      b mod freq_sum (optimizer_frequencies tr) /\
    (forall j, (j < i)%nat ->
       cumsum_at (optimizer_frequencies tr) j
       <= b mod freq_sum (optimizer_frequencies tr)).
Proof.
  intros Hne Hpos Hsum Hlen Hc.
  pose proof (rotation_index (optimizer_frequencies tr) b Hne Hpos Hsum) as H.
  cbv zeta in H. rewrite (firstn_length_sum _ Hne) in H.
  destruct H as (Hlast & Hmod & Hi & Hgt & Hlt).
  set (freqs := optimizer_frequencies tr) in *.
  set (position := b mod freq_sum freqs) in *.
  set (i := np_argmax (map (fun c => position <? c) (np_cumsum freqs))) in *.
  destruct (nth_error (optimizers tr) i) as [o|] eqn:Ho.
  2:{ apply nth_error_None in Ho. lia. }
  exists i, o. repeat split; try assumption.
  rewrite get_active_optimizers_configured by assumption.
  fold freqs. unfold bind. rewrite Hlast. unfold ret at 1.
  rewrite Hmod. fold i. rewrite Ho. reflexivity.
Qed.

(** X19. The rotation is periodic: with frequencies configured (positive,
    summing to an [int64], one per optimizer), batch indices that differ
    by a multiple of the sum of the frequencies get the same answer from
    [get_active_optimizers]; this covers negative batch indices. *)
Theorem get_active_optimizers_periodic :
  forall (tr : Trainer) (l : Loop) (b n : Z),
    optimizer_frequencies tr <> [] ->
    Forall (fun f => 0 < f) (optimizer_frequencies tr) ->
    freq_sum (optimizer_frequencies tr) <= max_int64 ->
    cache_coherent tr l ->
    get_active_optimizers tr
      (Some (b + n * freq_sum (optimizer_frequencies tr))) l =
    get_active_optimizers tr (Some b) l.
Proof.
  intros tr l b n Hne Hpos Hsum Hc.
  rewrite !get_active_optimizers_configured by assumption.
  pose proof (rotation_index (optimizer_frequencies tr) b Hne Hpos Hsum) as H.
  cbv zeta in H. rewrite (firstn_length_sum _ Hne) in H.
  destruct H as (Hlast & Hmod & _).
  assert (Hp : 0 < freq_sum (optimizer_frequencies tr)).
  { destruct (optimizer_frequencies tr) as [|x r]; [congruence|].
    inversion Hpos as [|? ? Hx Hr]; subst.
    change (freq_sum (x :: r)) with (x + freq_sum r).
    pose proof (freq_sum_pos r Hr). lia. }
  unfold bind. rewrite Hlast. unfold ret.
  unfold np_mod.
  replace (freq_sum (optimizer_frequencies tr) =? 0) with false
    by (symmetry; apply Z.eqb_neq; lia).
  now rewrite Z.mod_add by lia.
Qed.

Lemma get_active_optimizers_periodic_witness :
  get_active_optimizers sample_trainer (Some (2 + (-1) * 3)) __init__ =
  get_active_optimizers sample_trainer (Some 2) __init__.
Proof.
  apply (get_active_optimizers_periodic sample_trainer __init__ 2 (-1)).
  - discriminate.
  - repeat constructor.
  - vm_compute. discriminate.
  - left. reflexivity.
Defined.

Lemma freq_sum_firstn_step (l : list Z) : forall i,
  (i < length l)%nat ->
  freq_sum (firstn (S i) l) = freq_sum (firstn i l) + nth i l 0.
Proof.
  induction l as [|x r IH]; intros i Hi; cbn in Hi; [lia|].
  destruct i as [|i].
  - cbn. destruct r; cbn; lia.
  - change (firstn (S (S i)) (x :: r)) with (x :: firstn (S i) r).
    change (firstn (S i) (x :: r)) with (x :: firstn i r).
    cbn [freq_sum fold_right nth].
    fold (freq_sum (firstn (S i) r)). fold (freq_sum (firstn i r)).
    rewrite IH by lia. lia.
Qed.

Lemma freq_sum_firstn_mono (l : list Z) :
  Forall (fun f => 0 < f) l ->
  forall i j, (i <= j)%nat -> freq_sum (firstn i l) <= freq_sum (firstn j l).
Proof.
  intros Hpos i j Hij. induction Hij as [|j Hij IH]; [lia|].
  destruct (Nat.lt_ge_cases j (length l)) as [Hj|Hj].
  - rewrite (freq_sum_firstn_step l j Hj).
    assert (0 < nth j l 0).
    { rewrite Forall_forall in Hpos. apply Hpos. now apply nth_In. }
    lia.
  - rewrite (firstn_all2 (n := S j)) by lia.
    rewrite (firstn_all2 (n := j)) in IH by lia. exact IH.
Qed.

Lemma count_interval (lo : nat) : forall n hi,
  (hi <= n)%nat ->
  length (filter (fun b => (lo <=? b)%nat && (b <? hi)%nat) (seq 0 n))
  = (hi - lo)%nat.
Proof.
  induction n as [|n IH]; intros hi Hhi.
  - cbn [seq filter length]. lia.
  - rewrite seq_S, filter_app, length_app. cbn [filter Nat.add].
    destruct (Nat.le_gt_cases hi n) as [Hle|Hgt].
    + rewrite IH by exact Hle.
      replace (n <? hi)%nat with false by (symmetry; apply Nat.ltb_ge; lia).
      rewrite andb_false_r. cbn [length]. lia.
    + assert (hi = S n) by lia. subst hi.
      rewrite (filter_ext_in _ (fun b => (lo <=? b)%nat && (b <? n)%nat)).
      * rewrite IH by lia.
        replace (n <? S n)%nat with true by (symmetry; apply Nat.ltb_lt; lia).
        rewrite andb_true_r.
        destruct (lo <=? n)%nat eqn:E; cbn [length].
        -- apply Nat.leb_le in E. lia.
        -- apply Nat.leb_gt in E. lia.
      * intros b Hb. apply in_seq in Hb. f_equal.
        replace (b <? S n)%nat with true by (symmetry; apply Nat.ltb_lt; lia).
        symmetry. apply Nat.ltb_lt. lia.
Qed.

(** X20. Over one period of the rotation every optimizer is the active one
    exactly as many times as its frequency says: over the batch indices
    from 0 up to the sum of the frequencies, optimizer [i] is active
    [frequencies[i]] times. *)
Theorem rotation_follows_frequencies :
  forall (tr : Trainer) (l : Loop) (i : nat),
    Forall (fun f => 0 < f) (optimizer_frequencies tr) ->
    freq_sum (optimizer_frequencies tr) <= max_int64 ->
    (length (optimizer_frequencies tr) <= length (optimizers tr))%nat ->
    cache_coherent tr l ->
    (i < length (optimizer_frequencies tr))%nat ->
    times_active tr l i (Z.to_nat (freq_sum (optimizer_frequencies tr)))
    = Z.to_nat (nth i (optimizer_frequencies tr) 0).
Proof.
  intros tr l i Hpos Hsum Hlen Hc Hi.
  set (freqs := optimizer_frequencies tr) in *.
  assert (Hne : freqs <> []) by (destruct freqs; [cbn in Hi; lia | discriminate]).
  set (lo := freq_sum (firstn i freqs)).
  set (hi := freq_sum (firstn (S i) freqs)).
  assert (Hlo0 : 0 <= lo) by (apply (freq_sum_firstn_mono freqs Hpos 0 i); lia).
  assert (Hhi : hi = lo + nth i freqs 0)
    by (apply freq_sum_firstn_step; exact Hi).
  assert (Hf : 0 < nth i freqs 0).
  { rewrite Forall_forall in Hpos. apply Hpos. now apply nth_In. }
  assert (Hhin : hi <= freq_sum freqs).
  { pose proof (freq_sum_firstn_mono freqs Hpos (S i) (length freqs)
                  ltac:(lia)) as H.
    now rewrite firstn_all in H. }
  unfold times_active.
  rewrite (filter_ext_in _
             (fun b => (Z.to_nat lo <=? b)%nat && (b <? Z.to_nat hi)%nat)).
  { rewrite count_interval by lia. lia. }
  intros b Hb. apply in_seq in Hb.
  assert (Hbr : 0 <= Z.of_nat b < freq_sum freqs) by lia.
  unfold active_index.
  destruct (get_active_optimizers_rotation tr l (Z.of_nat b) Hne Hpos Hsum
              Hlen Hc) as (j & o & Hrun & Hj & Hgt & Hlt).
  fold freqs in Hrun, Hj, Hgt, Hlt.
  rewrite Z.mod_small in Hgt, Hlt by exact Hbr.
  rewrite Hrun. cbn [fst].
  unfold cumsum_at in Hgt, Hlt.
  destruct (Nat.eqb_spec j i) as [->|Hji].
  - symmetry. apply andb_true_iff. split.
    + apply Nat.leb_le.
      destruct i as [|i']; [subst lo; cbn; lia|].
      specialize (Hlt i' ltac:(lia)). fold lo in Hlt. lia.
    + apply Nat.ltb_lt. fold hi in Hgt. lia.
  - symmetry. apply andb_false_iff.
    destruct (Nat.lt_ge_cases j i) as [Hlt'|Hge].
    + left. apply Nat.leb_gt.
      assert (freq_sum (firstn (S j) freqs) <= lo)
        by (apply freq_sum_firstn_mono; [exact Hpos | lia]).
      lia.
    + right. apply Nat.ltb_ge.
      specialize (Hlt i ltac:(lia)). fold hi in Hlt. lia.
Qed.

Lemma rotation_follows_frequencies_witness :
  times_active sample_trainer __init__ 0 3 = 2%nat.
Proof.
  apply (rotation_follows_frequencies sample_trainer __init__ 0).
  - repeat constructor.
  - vm_compute. discriminate.
  - cbn. lia.
  - left. reflexivity.
  - cbn. lia.
Defined.

(** ** The outputs of a batch *)

Lemma rows_extend_refl (a : list (list ResultCollection)) : rows_extend a a.
Proof.
  split; [reflexivity|]. intros j row H. exists []. now rewrite app_nil_r.
Qed.

Lemma rows_extend_trans (a b c : list (list ResultCollection)) :
  rows_extend a b -> rows_extend b c -> rows_extend a c.
Proof.
  intros [L1 H1] [L2 H2]. split; [congruence|].
  intros j row Hj. destruct (H1 j row Hj) as [e1 Hb].
  destruct (H2 j _ Hb) as [e2 Hc]. exists (e1 ++ e2).
  now rewrite app_assoc.
Qed.

Lemma list_set_length {A} (l : list A) : forall i v,
  length (list_set l i v) = length l.
Proof.
  induction l as [|x r IH]; intros [|i] v; cbn; try reflexivity.
  now rewrite IH.
Qed.

Lemma list_set_nth {A} (l : list A) : forall i v j,
  nth_error (list_set l i v) j =
  if (j =? i)%nat then option_map (fun _ => v) (nth_error l j)
  else nth_error l j.
Proof.
  induction l as [|x r IH]; intros [|i] v [|j]; cbn; try reflexivity.
  - now destruct (j =? i)%nat.
  - apply IH.
Qed.

Lemma outputs_grow_refl (l : Loop) : outputs_grow l l.
Proof.
  unfold outputs_grow. destruct (batch_outputs l) as [a|]; [|reflexivity].
  exists a. split; [reflexivity | apply rows_extend_refl].
Qed.

Lemma outputs_grow_trans (l1 l2 l3 : Loop) :
  outputs_grow l1 l2 -> outputs_grow l2 l3 -> outputs_grow l1 l3.
Proof.
  unfold outputs_grow. intros H1 H2.
  destruct (batch_outputs l1) as [a|].
  - destruct H1 as (b & Hb & Hab). rewrite Hb in H2.
    destruct H2 as (c & Hc & Hbc). exists c. split; [exact Hc|].
    eapply rows_extend_trans; eassumption.
  - now rewrite H1 in H2.
Qed.

Lemma outputs_grow_same (l l' : Loop) :
  batch_outputs l' = batch_outputs l -> outputs_grow l l'.
Proof.
  intros H. unfold outputs_grow. rewrite H.
  destruct (batch_outputs l) as [a|]; [|reflexivity].
  exists a. split; [reflexivity | apply rows_extend_refl].
Qed.

Lemma outputs_grow_append (i : nat) (rc : ResultCollection) :
  stable outputs_grow (append_batch_output i rc).
Proof.
  intros l. unfold append_batch_output, bind, gets.
  destruct (batch_outputs l) as [outs|] eqn:Ho; cbn;
    [|now apply outputs_grow_same].
  destruct (nth_error outs i) as [row|] eqn:Hi; cbn;
    [|now apply outputs_grow_same].
  unfold outputs_grow. rewrite Ho. cbn.
  eexists. split; [reflexivity|]. split.
  - apply list_set_length.
  - intros j r Hj. rewrite list_set_nth.
    destruct (Nat.eqb_spec j i) as [->|Hne].
    + rewrite Hi in *. inversion Hj; subst. exists [rc]. reflexivity.
    + rewrite Hj. exists []. now rewrite app_nil_r.
Qed.

Ltac outputs_fin := apply outputs_grow_same; reflexivity.

Lemma outputs_grow__run_optimization tr batch_idx split_batch opt_idx
    optimizer :
  stable outputs_grow
    (_run_optimization tr batch_idx split_batch opt_idx optimizer).
Proof.
  apply (stable__run_optimization _ outputs_grow_refl outputs_grow_trans);
    try (intros; outputs_fin);
    try (intros; stable_units outputs_grow_refl outputs_grow_trans
                   ltac:(outputs_fin)).
  - intros _ l; split; outputs_fin.
  - intros _ _ c Hc.
    apply (stable__optimizer_step _ outputs_grow_refl outputs_grow_trans);
      try (intros; outputs_fin); exact Hc.
Qed.

(** X21. [advance] never drops or reorders what a batch has produced so
    far: the outputs keep their number of rows, one per optimizer as
    [reset] allocated them, and every row keeps the results it had, with
    any new results added at its end.  This holds under automatic and
    manual optimization, and when [advance] raises. *)
Theorem advance_outputs_grow :
  forall (tr : Trainer) (batch : Batch) (batch_idx : Z) (l : Loop)
         (outs : list (list ResultCollection)),
    batch_outputs l = Some outs ->
    exists outs',
      batch_outputs (snd (advance tr batch batch_idx l)) = Some outs' /\
      length outs' = length outs /\
      forall j row, nth_error outs j = Some row ->
                    exists extra, nth_error outs' j = Some (row ++ extra).
Proof.
  intros tr batch batch_idx l outs Ho.
  assert (H : stable outputs_grow (advance tr batch batch_idx)).
  { unfold advance.
    apply (stable_bind _ outputs_grow_trans);
      [apply (stable_gets _ outputs_grow_refl) | intros rs].
    destruct rs as [[|[si sb] rest]|];
      try apply (stable_raise _ outputs_grow_refl).
    apply (stable_bind _ outputs_grow_trans);
      [apply stable_modify; intros; outputs_fin | intros _].
    apply (stable_bind _ outputs_grow_trans);
      [apply stable_modify; intros; outputs_fin | intros _].
    apply (stable_bind _ outputs_grow_trans);
      [apply stable_modify; intros; outputs_fin | intros _].
    destruct (automatic_optimization tr).
    - apply (stable_bind _ outputs_grow_trans).
      + apply (stable_get_active_optimizers _ outputs_grow_refl
                 outputs_grow_trans).
        intros; outputs_fin.
      + intros active.
        apply (stable_advance_optimizers _ outputs_grow_refl
                 outputs_grow_trans).
        * apply outputs_grow_append.
        * intros; outputs_fin.
        * intros i o. apply outputs_grow__run_optimization.
    - apply (stable_bind _ outputs_grow_trans);
        [apply outputs_grow__run_optimization | intros [r|]].
      + apply outputs_grow_append.
      + apply (stable_ret _ outputs_grow_refl). }
  specialize (H l). unfold outputs_grow in H. rewrite Ho in H.
  destruct H as (outs' & Ho' & Hlen & Hrows).
  exists outs'. repeat split; assumption.
Qed.

Lemma advance_outputs_grow_witness :
  exists outs',
    batch_outputs (snd (advance plain_trainer [1; 2] 0 running_loop))
      = Some outs' /\
    length outs' = 2%nat.
Proof.
  destruct (advance_outputs_grow plain_trainer [1; 2] 0 running_loop
              [[]; []] eq_refl) as (outs' & Ho & Hlen & _).
  exists outs'. split; assumption.
Defined.

(** ** Counting the active optimizers, and the end of [run] *)

(** X22. [num_active_optimizers] is the number of configured optimizers
    when no frequencies are configured, for any batch index and for an
    omitted one, and it is 1 for every batch index when frequencies are
    configured (positive, summing to an [int64], one per optimizer). *)
Theorem num_active_optimizers_counts :
  forall (tr : Trainer) (l : Loop),
    (optimizer_frequencies tr = [] ->
     forall b, num_active_optimizers tr b l =
               (Ret (length (optimizers tr)), l)) /\
    (optimizer_frequencies tr <> [] ->
     Forall (fun f => 0 < f) (optimizer_frequencies tr) ->
     freq_sum (optimizer_frequencies tr) <= max_int64 ->
     (length (optimizer_frequencies tr) <= length (optimizers tr))%nat ->
     cache_coherent tr l ->
     forall b, num_active_optimizers tr (Some b) l =
               (Ret 1%nat,
                set_optimizer_freq_cumsum
                  (Some (np_cumsum (optimizer_frequencies tr))) l)).
Proof.
  intros tr l. split.
  - intros Hf b. unfold num_active_optimizers, get_active_optimizers, bind.
    rewrite Hf. cbn. now rewrite enumerate_length.
  - intros Hne Hpos Hsum Hlen Hc b.
    destruct (get_active_optimizers_rotation tr l b Hne Hpos Hsum Hlen Hc)
      as (i & o & Hrun & _).
    unfold num_active_optimizers, bind. rewrite Hrun. reflexivity.
Qed.

Lemma num_active_optimizers_counts_witness :
  num_active_optimizers plain_trainer None __init__ = (Ret 2%nat, __init__) /\
  num_active_optimizers sample_trainer (Some 7) __init__ =
    (Ret 1%nat, set_optimizer_freq_cumsum (Some [2; 3]) __init__).
Proof.
  split.
  - apply (proj1 (num_active_optimizers_counts plain_trainer __init__)).
    reflexivity.
  - apply (proj2 (num_active_optimizers_counts sample_trainer __init__)).
    + discriminate.
    + repeat constructor.
    + vm_compute. discriminate.
    + cbn. lia.
    + left. reflexivity.
Defined.

(** X23. Whenever [run] returns for a batch that is not [None], the signal
    is -1 or 0.  With signal -1 the output has no [training_step_output]
    entry; with signal 0 it has one and the loop's [batch_outputs] has
    been released: it is [None] afterwards. *)
Theorem run_signals :
  forall (tr : Trainer) (batch : Batch) (batch_idx : Z) (l : Loop)
         (out : RunOutput),
    fst (run tr (Some batch) batch_idx l) = Ret out ->
    (signal out = -1 /\ training_step_output out = None) \/
    (signal out = 0 /\ training_step_output out <> None /\
     batch_outputs (snd (run tr (Some batch) batch_idx l)) = None).
Proof.
  intros tr batch batch_idx l out H.
  destruct (run tr (Some batch) batch_idx l) as [r l'] eqn:E.
  cbn in H. subst r. cbn [snd]. unfold run in E.
  apply bind_ret_inv in E as ([] & l1 & _ & E).
  apply bind_ret_inv in E as ([] & l2 & _ & E).
  destruct (is_abort (on_batch_start_response tr)).
  { inversion E; subst. left. split; reflexivity. }
  apply bind_ret_inv in E as ([] & l3 & _ & E).
  destruct (is_abort (on_train_batch_start_response tr batch batch_idx)).
  { inversion E; subst. left. split; reflexivity. }
  apply bind_ret_inv in E as ([] & l4 & _ & E).
  apply bind_ret_inv in E as ([] & l5 & _ & E).
  apply bind_ret_inv in E as (outputs & l6 & _ & E).
  apply bind_ret_inv in E as ([] & l7 & Hm & E).
  inversion E; subst. unfold modify in Hm. inversion Hm; subst.
  right. repeat split. discriminate.
Qed.

Lemma run_signals_witness :
  exists out,
    fst (run plain_trainer (Some [1; 2]) 0 running_loop) = Ret out /\
    signal out = 0 /\
    batch_outputs (snd (run plain_trainer (Some [1; 2]) 0 running_loop))
    = None.
Proof.
  pose proof (run_signals plain_trainer [1; 2] 0 running_loop) as H.
  revert H. vm_compute. intros H.
  eexists. split; [reflexivity|].
  destruct (H _ eq_refl) as [[Hs _]|(Hs & _ & Hb)]; [discriminate|].
  split; assumption.
Defined.
